(** * XAUUSD tick logger (src/logging/mt5_logger.py): the ingestion core

    A shallow embedding of the watermark store, the session classifier, the
    tick enricher and the tick part of the main loop, followed by the
    properties of the specification that concern them.  The bar
    synchronisation and the depth snapshots, which keep state of their own,
    are embedded beside it, with further properties of the code at the end.

    Conventions.
    - Python integers are [Z]; numpy/Python floats are IEEE binary64 values,
      the kernel's [float], so every price computation below is the very
      rounding sequence the interpreter performs.
    - An aware UTC [datetime] is its number of microseconds since the epoch.
    - A function that may raise returns a [result].
    - Files are fields of the [world] record; what the clock and the data
      source answer in one loop iteration is a [cycle_input]. *)

From Stdlib Require Import ZArith List String Ascii Bool Lia QArith.
From Stdlib Require Import PrimFloat Uint63.
Import ListNotations.
Local Open Scope string_scope.
Local Open Scope Z_scope.

(** Decimal price literals stand for the nearest binary64 value, as in Python. *)
#[local] Set Warnings "-inexact-float".

(* ------------------------------------------------------------------ *)
(** ** Python results and exceptions *)

Inductive exn : Type :=
  | FileNotFoundError
  | JSONDecodeError
  | PermissionError
  | UnicodeDecodeError
  | AttributeError
  | TypeError
  | KeyError
  | ValueError.

Inductive result (A : Type) : Type :=
  | Ok (a : A)
  | Raise (e : exn).
Arguments Ok {A} a.
Arguments Raise {A} e.

(* ------------------------------------------------------------------ *)
(** ** Configuration constants *)

Definition MAX_FAILS : Z := 5.
(** [LOOP_SLEEP = 0.25] and the back-off [time.sleep(0.5)], in milliseconds. *)
Definition LOOP_SLEEP : Z := 250.
Definition FETCH_BACKOFF : Z := 500.
(** The pause of the outer handler, [time.sleep(1)]. *)
Definition OUTER_BACKOFF : Z := 1000.

(* ------------------------------------------------------------------ *)
(** ** Instants *)

(** Microseconds since 1970-01-01T00:00:00Z. *)
Definition datetime : Type := Z.

(** [msc_to_dt]: [datetime.fromtimestamp(time_msc / 1000.0, tz=utc)].  The
    quotient is a double and [fromtimestamp] rounds it to the nearest
    microsecond; for every millisecond count of magnitude below 2^33 seconds
    (year 2242) that is exactly [time_msc] milliseconds, which is what the
    model takes.  Years outside 1..9999, where the library raises, are not
    modelled. *)
Definition msc_to_dt (time_msc : Z) : datetime := time_msc * 1000.

Definition dt_hour (dt : datetime) : Z := (dt / 3600000000) mod 24.
Definition dt_minute (dt : datetime) : Z := (dt / 60000000) mod 60.
Definition dt_second (dt : datetime) : Z := (dt / 1000000) mod 60.
Definition dt_microsecond (dt : datetime) : Z := dt mod 1000000.
Definition dt_days (dt : datetime) : Z := dt / 86400000000.

(** The proleptic Gregorian date of a day count (days since 1970-01-01). *)
Definition civil_from_days (days : Z) : Z * Z * Z :=
  let z := days + 719468 in
  let era := z / 146097 in
  let doe := z - era * 146097 in
  let yoe := (doe - doe / 1460 + doe / 36524 - doe / 146096) / 365 in
  let doy := doe - (365 * yoe + yoe / 4 - yoe / 100) in
  let mp := (5 * doy + 2) / 153 in
  let d := doy - (153 * mp + 2) / 5 + 1 in
  let m := if mp <? 10 then mp + 3 else mp - 9 in
  let y := yoe + era * 400 + (if m <=? 2 then 1 else 0) in
  (y, m, d).

Definition digit (d : Z) : ascii := ascii_of_nat (48 + Z.to_nat (d mod 10)).

(** [width] decimal digits of a non-negative number, zero padded. *)
Fixpoint zero_padded (width : nat) (n : Z) : string :=
  match width with
  | O => EmptyString
  | S w => zero_padded w (n / 10) ++ String (digit n) EmptyString
  end.

(** [dt.isoformat()] of an aware UTC datetime: the fraction is printed, with
    six digits, only when the microsecond field is not zero. *)
Definition isoformat (dt : datetime) : string :=
  let '(y, m, d) := civil_from_days (dt_days dt) in
  zero_padded 4 y ++ "-" ++ zero_padded 2 m ++ "-" ++ zero_padded 2 d ++ "T"
  ++ zero_padded 2 (dt_hour dt) ++ ":" ++ zero_padded 2 (dt_minute dt) ++ ":"
  ++ zero_padded 2 (dt_second dt)
  ++ (if dt_microsecond dt =? 0 then "" else "." ++ zero_padded 6 (dt_microsecond dt))
  ++ "+00:00".

(** [dt.strftime("%A")] and pandas' [day_name()]. *)
Definition day_name (dt : datetime) : string :=
  nth (Z.to_nat ((dt_days dt + 3) mod 7))
      ["Monday"; "Tuesday"; "Wednesday"; "Thursday"; "Friday"; "Saturday"; "Sunday"]
      "".

(* ------------------------------------------------------------------ *)
(** ** Session classifier *)

Inductive session : Type := Asia | London | NewYork | LondonNY_Overlap.

Definition session_name (s : session) : string :=
  match s with
  | Asia => "Asia"
  | London => "London"
  | NewYork => "NewYork"
  | LondonNY_Overlap => "LondonNY_Overlap"
  end.

Definition session_eqb (a b : session) : bool :=
  match a, b with
  | Asia, Asia | London, London | NewYork, NewYork
  | LondonNY_Overlap, LondonNY_Overlap => true
  | _, _ => false
  end.

(** A small non-negative Python [int] converted to [float]. *)
Definition float_of_Z (z : Z) : float := of_uint63 (Uint63.of_Z z).

(** The chain of comparisons of [get_session] on the fractional hour. *)
Definition session_of_hour (h : float) : session :=
  if (12 <=? h)%float && (h <? 16)%float then LondonNY_Overlap
  else if (7 <=? h)%float && (h <? 16)%float then London
  else if (12 <=? h)%float && (h <? 21)%float then NewYork
  else Asia.

Definition get_session (dt : datetime) : session :=
  let h := (float_of_Z (dt_hour dt) + float_of_Z (dt_minute dt) / 60)%float in
  session_of_hour h.

(** The same chain on the exact rational hour, as the specification words it. *)
Definition Qlt_bool (a b : Q) : bool := negb (Qle_bool b a).

Definition session_of_exact_hour (h : Q) : session :=
  if Qle_bool 12 h && Qlt_bool h 16 then LondonNY_Overlap
  else if Qle_bool 7 h && Qlt_bool h 16 then London
  else if Qle_bool 12 h && Qlt_bool h 21 then NewYork
  else Asia.

Definition exact_hour (dt : datetime) : Q :=
  (inject_Z (dt_hour dt) + inject_Z (dt_minute dt) / 60)%Q.

(* ------------------------------------------------------------------ *)
(** ** Watermark store *)

(** What [json.load] can return.  A finite float is kept by its exact
    rational value (Python compares [int] and [float] by value); an object is
    the parsed [dict], keys distinct, in document order. *)
#[local] Unset Elimination Schemes.
Inductive json : Type :=
  | JNull
  | JBool (b : bool)
  | JInt (n : Z)
  | JFloat (q : Q)
  | JStr (s : string)
  | JArr (items : list json)
  | JObj (members : list (string * json)).
#[local] Set Elimination Schemes.

(** What is on disk at [STATE_FILE], by what reading it does:
    [open] raises [FileNotFoundError]; [open] or [json.load] raises [e];
    or the text parses to a value. *)
Inductive state_file : Type :=
  | Absent
  | Damaged (e : exn)
  | Stored (j : json).

Definition read_json (f : state_file) : result json :=
  match f with
  | Absent => Raise FileNotFoundError
  | Damaged e => Raise e
  | Stored j => Ok j
  end.

Fixpoint dict_lookup (key : string) (members : list (string * json)) : option json :=
  match members with
  | [] => None
  | (k, v) :: rest => if String.eqb k key then Some v else dict_lookup key rest
  end.

(** [state.get(key, default)]: only a [dict] has the method. *)
Definition py_get (state : json) (key : string) (default : json) : result json :=
  match state with
  | JObj members =>
      Ok (match dict_lookup key members with Some v => v | None => default end)
  | _ => Raise AttributeError
  end.

(** [v <= n] and [v > n] for an [int] [n]: defined on numbers ([bool] is an
    [int]), a [TypeError] on anything else. *)
Definition py_le_int (v : json) (n : Z) : result bool :=
  match v with
  | JInt z => Ok (z <=? n)
  | JBool b => Ok ((if b then 1 else 0) <=? n)
  | JFloat q => Ok (Qle_bool q (inject_Z n))
  | _ => Raise TypeError
  end.

Definition py_gt_int (v : json) (n : Z) : result bool :=
  match v with
  | JInt z => Ok (n <? z)
  | JBool b => Ok (n <? (if b then 1 else 0))
  | JFloat q => Ok (negb (Qle_bool q (inject_Z n)))
  | _ => Raise TypeError
  end.

(** [load_state()], given the file and [now_msc = int(time.time() * 1000)].
    The [except] clause names [FileNotFoundError] and [JSONDecodeError] only;
    the [or] evaluates its right operand only when the left one is false. *)
Definition load_state (f : state_file) (now_msc : Z) : result json :=
  let loaded :=
    match read_json f with
    | Ok state => py_get state "last_time_msc" (JInt 0)
    | Raise FileNotFoundError | Raise JSONDecodeError => Ok (JInt 0)
    | Raise e => Raise e
    end in
  match loaded with
  | Raise e => Raise e
  | Ok v =>
      match py_le_int v 0 with
      | Raise e => Raise e
      | Ok true => Ok (JInt (now_msc - 2000))
      | Ok false =>
          match py_gt_int v now_msc with
          | Raise e => Raise e
          | Ok true => Ok (JInt (now_msc - 2000))
          | Ok false => Ok v
          end
      end
  end.

(** The document [save_state] dumps. *)
Definition state_record (last_time_msc : Z) (now : datetime) : json :=
  JObj [ ("last_time_msc", JInt last_time_msc);
         ("last_time_dt", JStr (isoformat (msc_to_dt last_time_msc)));
         ("updated_at", JStr (isoformat now)) ].

(* ------------------------------------------------------------------ *)
(** ** Tick enrichment *)

(** A row of the structured array [copy_ticks_from] returns.  [volume_real]
    is [None] when the array has no such column. *)
Record raw_tick : Type := {
  time_msc : Z;
  bid : float;
  ask : float;
  last : float;
  volume : Z;
  volume_real : option float;
  flags : Z
}.

Definition flag_description (flags : Z) : string :=
  let part (mask : Z) (name : string) : list string :=
    if Z.land flags mask =? 0 then [] else [name] in
  let parts :=
    (part 2 "BID" ++ part 4 "ASK" ++ part 8 "LAST" ++ part 16 "VOLUME"
       ++ part 32 "BUY" ++ part 64 "SELL")%list in
  match parts with
  | [] => "TICK"
  | _ => String.concat "|" parts
  end.

(** Rounding of a float64 column, as numpy does it ([Series.round] hands over
    to [ndarray.round]): scale by the power of ten, round to the nearest
    integer with ties to even ([rint]), scale back. *)
Definition two52 : float := 4503599627370496%float.

Definition rint (x : float) : float :=
  if (abs x <? two52)%float then
    let r := (abs x + two52 - two52)%float in
    if get_sign x then (- r)%float else r
  else x.

Fixpoint power_of_ten (decimals : nat) : float :=
  match decimals with
  | O => 1%float
  | S d => (power_of_ten d * 10)%float
  end.

Definition np_round (x : float) (decimals : nat) : float :=
  (rint (x * power_of_ten decimals) / power_of_ten decimals)%float.

(** Element-wise arithmetic of two aligned columns ([Series] op [Series]). *)
Fixpoint zip_with {A B C} (f : A -> B -> C) (xs : list A) (ys : list B) : list C :=
  match xs, ys with
  | x :: xs', y :: ys' => f x y :: zip_with f xs' ys'
  | _, _ => []
  end.

(** The frame [process_ticks] returns, column by column: the columns of the
    source array, kept together as its records, and the ones the function
    adds.  [TICK_COLUMNS] also names a [spread] column; the source has none,
    so the final column filter drops it. *)
Record tick_frame : Type := {
  source : list raw_tick;      (* time_msc, bid, ask, last, volume, flags *)
  col_volume_real : list float;
  col_time_dt : list string;
  col_spread_pct : list float;
  col_mid : list float;
  col_bid_ask_imbalance : list float;
  col_flag_desc : list string;
  col_session : list session;
  col_day_of_week : list string;
  col_hour_utc : list Z
}.

(** [process_ticks] on a tick array (the structured array the terminal
    returns, one record per tick, possibly none): every column operation is
    defined, whatever the number of rows.  [volume_real] is filled with 0.0
    where the source has none; [pd.to_datetime(..., unit="ms", utc=True)] is
    exact.  The function is untyped in the source: [py_process_ticks] below
    is the call on either value the loop's variable [ticks_raw] can hold. *)
Definition process_ticks (ticks_raw : list raw_tick) : tick_frame :=
  let df_time_msc := map time_msc ticks_raw in
  let df_bid := map bid ticks_raw in
  let df_ask := map ask ticks_raw in
  let df_flags := map flags ticks_raw in
  let dts := map msc_to_dt df_time_msc in
  {| source := ticks_raw;
     col_volume_real :=
       map (fun t => match volume_real t with Some v => v | None => 0%float end)
           ticks_raw;
     col_time_dt := map (fun x => isoformat (msc_to_dt x)) df_time_msc;
     col_spread_pct :=
       map (fun x => np_round x 6)
           (map (fun x => x * 100)%float
                (zip_with PrimFloat.div (zip_with PrimFloat.sub df_ask df_bid) df_bid));
     col_mid :=
       map (fun x => np_round x 5)
           (map (fun x => x / 2)%float (zip_with PrimFloat.add df_bid df_ask));
     col_bid_ask_imbalance :=
       map (fun x => np_round x 6) (zip_with PrimFloat.div df_bid df_ask);
     col_flag_desc := map flag_description df_flags;
     col_session := map get_session dts;
     col_day_of_week := map day_name dts;
     col_hour_utc := map dt_hour dts |}.

(** [len(df)]. *)
Definition frame_len (df : tick_frame) : nat := List.length (source df).

(** A data row of the tick log. *)
Record enriched_tick : Type := {
  tick : raw_tick;            (* time_msc, bid, ask, last, volume, flags *)
  volume_real_filled : float;
  time_dt : string;
  flag_desc : string;
  spread_pct : float;
  mid : float;
  bid_ask_imbalance : float;
  session_tag : session;
  day_of_week : string;
  hour_utc : Z
}.

(** The rows [to_csv] writes: the columns read across. *)
Fixpoint rows_across (src : list raw_tick) (vr : list float) (td : list string)
    (sp md im : list float) (fd : list string) (se : list session)
    (dw : list string) (hu : list Z) : list enriched_tick :=
  match src, vr, td, sp, md, im, fd, se, dw, hu with
  | t :: src', v :: vr', d :: td', s :: sp', m :: md', b :: im', f :: fd',
    e :: se', w :: dw', h :: hu' =>
      {| tick := t; volume_real_filled := v; time_dt := d; flag_desc := f;
         spread_pct := s; mid := m; bid_ask_imbalance := b; session_tag := e;
         day_of_week := w; hour_utc := h |}
      :: rows_across src' vr' td' sp' md' im' fd' se' dw' hu'
  | _, _, _, _, _, _, _, _, _, _ => []
  end.

Definition frame_rows (df : tick_frame) : list enriched_tick :=
  rows_across (source df) (col_volume_real df) (col_time_dt df)
    (col_spread_pct df) (col_mid df) (col_bid_ask_imbalance df)
    (col_flag_desc df) (col_session df) (col_day_of_week df) (col_hour_utc df).

(** [int(ticks_raw["time_msc"].max())]; numpy raises on an empty column,
    which the loop's guard excludes. *)
Definition time_msc_max (ticks_raw : list raw_tick) : Z :=
  match ticks_raw with
  | [] => 0
  | t :: rest => fold_left Z.max (map time_msc rest) (time_msc t)
  end.

(** What the loop's variable [ticks_raw] holds once the fetch has returned:
    the tick array of the terminal, or the bare Python list [[]] that the
    loop puts in the place of a [None] answer.  The list has no columns. *)
Inductive ticks_value : Type :=
  | TickArray (records : list raw_tick)
  | EmptyList.

(** [len(ticks_raw)]. *)
Definition py_len (ticks_raw : ticks_value) : nat :=
  match ticks_raw with
  | TickArray records => List.length records
  | EmptyList => O
  end.

(** [int(ticks_raw["time_msc"].max())] on either value: a list takes no
    string index, and numpy has no maximum of an empty column. *)
Definition py_time_msc_max (ticks_raw : ticks_value) : result Z :=
  match ticks_raw with
  | EmptyList => Raise TypeError
  | TickArray [] => Raise ValueError
  | TickArray records => Ok (time_msc_max records)
  end.

(** [process_ticks(ticks_raw)] on either value.  [pd.DataFrame([])] is a
    frame without columns: [volume_real] is added to it, and the next line,
    [df["time_msc"]], raises [KeyError]. *)
Definition py_process_ticks (ticks_raw : ticks_value) : result tick_frame :=
  match ticks_raw with
  | TickArray records => Ok (process_ticks records)
  | EmptyList => Raise KeyError
  end.

(* ------------------------------------------------------------------ *)
(** ** Append-only logs *)

(** A CSV destination: [None] until first written (the header goes with the
    first write), then its data rows. *)
Definition csv (A : Type) : Type := option (list A).

Definition csv_rows {A} (f : csv A) : list A :=
  match f with None => [] | Some rows => rows end.

Definition to_csv_append {A} (f : csv A) (rows : list A) : csv A :=
  Some (csv_rows f ++ rows)%list.

(** [append_ticks]: nothing is touched for an empty frame. *)
Definition append_ticks (f : csv enriched_tick) (df : tick_frame)
  : csv enriched_tick :=
  if Nat.eqb (frame_len df) 0 then f else to_csv_append f (frame_rows df).

(* ------------------------------------------------------------------ *)
(** ** Process state *)

(** A row of the session log. *)
Record session_event : Type := {
  ev_time_dt : string;
  ev_session : session;
  ev_prev : option session;
  ev_weekday : string
}.

(** Console lines ([log]) and pauses ([time.sleep]), in program order. *)
Inductive event : Type :=
  | LogMt5Error (code : Z)
  | LogFetchFailed (attempt limit : Z)
  | LogTimestampReset (limit : Z)
  | LogStateSaveFailed
  | LogSession (prev : option session) (sess : session)
  | LogShutdown (state_saved : bool)
  | LogOuterError (e : exn)
  | Sleep (milliseconds : Z).

(** The module-level variables the tick path reads and writes, and the files
    it writes.  The periodic tasks of the loop (bar sync, depth snapshot,
    metadata, heartbeat) keep their own cursors and files and write none of
    these fields; they are left out.  Appending to a CSV file is taken to
    succeed; the state-file write has its failing cases, the ones
    [save_state] absorbs. *)
Record world : Type := {
  last_time_msc : Z;
  fail_count : Z;
  total_ticks : Z;
  current_session : option session;     (* _current_session, None at start *)
  tick_csv : csv enriched_tick;
  state_json : state_file;
  session_csv : csv session_event;
  trace : list event
}.

Definition emit (evs : list event) (w : world) : world :=
  {| last_time_msc := last_time_msc w;
     fail_count := fail_count w;
     total_ticks := total_ticks w;
     current_session := current_session w;
     tick_csv := tick_csv w;
     state_json := state_json w;
     session_csv := session_csv w;
     trace := (trace w ++ evs)%list |}.

Definition set_fail_count (n : Z) (w : world) : world :=
  {| last_time_msc := last_time_msc w;
     fail_count := n;
     total_ticks := total_ticks w;
     current_session := current_session w;
     tick_csv := tick_csv w;
     state_json := state_json w;
     session_csv := session_csv w;
     trace := trace w |}.

Definition set_last_time_msc (t : Z) (w : world) : world :=
  {| last_time_msc := t;
     fail_count := fail_count w;
     total_ticks := total_ticks w;
     current_session := current_session w;
     tick_csv := tick_csv w;
     state_json := state_json w;
     session_csv := session_csv w;
     trace := trace w |}.

Definition option_session_eqb (a b : option session) : bool :=
  match a, b with
  | None, None => true
  | Some x, Some y => session_eqb x y
  | _, _ => false
  end.

(** How the [try] block of [save_state] ends.  [open(STATE_FILE, "w")]
    empties the file before the record is built and dumped, so an exception
    raised after it never leaves the file as it was: what is left is the part
    of the text that reached the file. *)
Inductive write_outcome : Type :=
  | Written       (* the block completes: the record is on file *)
  | OpenFailed    (* [open] raises: the file is not touched *)
  | DumpFailed    (* raised after [open], before the whole text has reached
                     the file: it is left empty or cut short *)
  | CloseFailed.  (* raised after [open], once the whole text has reached
                     the file (an error of the closing itself) *)

Definition set_state_json (f : state_file) (w : world) : world :=
  {| last_time_msc := last_time_msc w;
     fail_count := fail_count w;
     total_ticks := total_ticks w;
     current_session := current_session w;
     tick_csv := tick_csv w;
     state_json := f;
     session_csv := session_csv w;
     trace := trace w |}.

(** [save_state]: a failing write is logged and absorbed; [now] is what
    [now_utc()] reads.  The text [json.dump] writes ends with the closing
    brace of the record, so no proper prefix of it (the empty one included)
    is a JSON document: reading the file [DumpFailed] leaves behind raises
    [JSONDecodeError]. *)
Definition save_state (outcome : write_outcome) (now : datetime) (w : world)
  : world :=
  match outcome with
  | Written => set_state_json (Stored (state_record (last_time_msc w) now)) w
  | OpenFailed => emit [LogStateSaveFailed] w
  | DumpFailed =>
      emit [LogStateSaveFailed] (set_state_json (Damaged JSONDecodeError) w)
  | CloseFailed =>
      emit [LogStateSaveFailed]
        (set_state_json (Stored (state_record (last_time_msc w) now)) w)
  end.

Definition check_session_change (dt : datetime) (w : world) : world :=
  let sess := get_session dt in
  if option_session_eqb (Some sess) (current_session w) then w
  else
    let row := {| ev_time_dt := isoformat dt;
                  ev_session := sess;
                  ev_prev := current_session w;
                  ev_weekday := day_name dt |} in
    {| last_time_msc := last_time_msc w;
       fail_count := fail_count w;
       total_ticks := total_ticks w;
       current_session := Some sess;
       tick_csv := tick_csv w;
       state_json := state_json w;
       session_csv := to_csv_append (session_csv w) [row];
       trace := (trace w ++ [LogSession (current_session w) sess])%list |}.

(* ------------------------------------------------------------------ *)
(** ** One iteration of the main loop *)

(** How the inner [try] around [copy_ticks_from] ends. *)
Inductive fetch_outcome : Type :=
  | FetchRaised                         (* an exception: the failure path *)
  | FetchNone (last_error : Z)          (* None, with mt5.last_error()[0] *)
  | FetchTicks (ticks_raw : list raw_tick).

Record cycle_input : Type := {
  fetched : fetch_outcome;
  clock_msc : Z;          (* int(time.time() * 1000), read on the reset path *)
  clock_utc : datetime;   (* now_utc(), read by save_state *)
  state_write : write_outcome   (* how a write of the state file would end *)
}.

(** The write of the state file goes through. *)
Definition state_writable (i : cycle_input) : bool :=
  match state_write i with
  | Written => true
  | _ => false
  end.

(** The [except] branch of the fetch: count, log, back off, and at
    [MAX_FAILS] move the watermark; [continue] then skips the rest. *)
Definition count_failure (w : world) : world :=
  let w1 := set_fail_count (fail_count w + 1) w in
  emit [LogFetchFailed (fail_count w1) MAX_FAILS; Sleep FETCH_BACKOFF] w1.

Definition reset_if_exhausted (now_msc : Z) (w : world) : world :=
  if MAX_FAILS <=? fail_count w then
    set_fail_count 0
      (emit [LogTimestampReset MAX_FAILS] (set_last_time_msc (now_msc - 1000) w))
  else w.

Definition fetch_failed (i : cycle_input) (w : world) : world :=
  reset_if_exhausted (clock_msc i) (count_failure w).

(** "Process & write ticks": what follows [df = process_ticks(ticks_raw)]
    in the body guarded by [new_last > last_time_msc]. *)
Definition ingest (i : cycle_input) (new_last : Z) (df : tick_frame) (w : world)
  : world :=
  let appended :=
    {| last_time_msc := new_last + 1;
       fail_count := fail_count w;
       total_ticks := total_ticks w + Z.of_nat (frame_len df);
       current_session := current_session w;
       tick_csv := append_ticks (tick_csv w) df;
       state_json := state_json w;
       session_csv := session_csv w;
       trace := trace w |} in
  check_session_change (msc_to_dt new_last)
    (save_state (state_write i) (clock_utc i) appended).

(** The block under [n = len(ticks_raw)]; an exception of [max] or of
    [process_ticks] leaves it before anything is assigned or written. *)
Definition process_batch (i : cycle_input) (ticks_raw : ticks_value) (w : world)
  : result world :=
  let n := Z.of_nat (py_len ticks_raw) in
  if 0 <? n then
    match py_time_msc_max ticks_raw with
    | Raise e => Raise e
    | Ok new_last =>
        if last_time_msc w <? new_last then
          match py_process_ticks ticks_raw with
          | Raise e => Raise e
          | Ok df => Ok (ingest i new_last df w)
          end
        else Ok w
    end
  else Ok w.

(** The end of the iteration: [time.sleep(LOOP_SLEEP)], or the outer
    [except Exception] when the block above raised. *)
Definition end_of_iteration (before : world) (r : result world) : world :=
  match r with
  | Ok w => emit [Sleep LOOP_SLEEP] w
  | Raise e => emit [LogOuterError e; Sleep OUTER_BACKOFF] before
  end.

(** One iteration.  For a [None] answer the loop goes on with
    [ticks_raw = []], the bare list. *)
Definition cycle (w : world) (i : cycle_input) : world :=
  match fetched i with
  | FetchRaised => fetch_failed i w
  | FetchNone err =>
      let w1 := if (err =? 0) || (err =? 1) then w else emit [LogMt5Error err] w in
      let w2 := set_fail_count 0 w1 in
      end_of_iteration w2 (process_batch i EmptyList w2)
  | FetchTicks records =>
      let w2 := set_fail_count 0 w in
      end_of_iteration w2 (process_batch i (TickArray records) w2)
  end.

(** Successive iterations. *)
Definition run (w : world) (inputs : list cycle_input) : world :=
  fold_left cycle inputs w.

(** The [KeyboardInterrupt] handler, which ends the loop: the watermark in
    memory is saved between the two shutdown lines. *)
Definition on_interrupt (i : cycle_input) (w : world) : world :=
  emit [LogShutdown true]
    (save_state (state_write i) (clock_utc i) (emit [LogShutdown false] w)).

(** The process as the start-up block leaves it, once [load_state] has given
    the watermark. *)
Definition startup (watermark : Z) (ticks : csv enriched_tick) (state : state_file)
    (sessions : csv session_event) : world :=
  {| last_time_msc := watermark;
     fail_count := 0;
     total_ticks := 0;
     current_session := None;
     tick_csv := ticks;
     state_json := state;
     session_csv := sessions;
     trace := [] |}.

(** The session check applied to successive instants. *)
Definition observe (w : world) (instants : list datetime) : world :=
  fold_left (fun acc dt => check_session_change dt acc) instants w.

(* ------------------------------------------------------------------ *)
(** ** Bar synchronisation *)

Inductive timeframe : Type := M1 | M5 | M15 | M30 | H1 | H4 | D1 | W1 | MN1.

(** The keys of [TIMEFRAMES], in the order the dictionary is iterated. *)
Definition TIMEFRAMES : list timeframe := [M1; M5; M15; M30; H1; H4; D1; W1; MN1].

Definition OHLCV_LOOKBACK (tf : timeframe) : Z :=
  match tf with
  | W1 => 200
  | MN1 => 100
  | _ => 500
  end.

Definition timeframe_eqb (a b : timeframe) : bool :=
  match a, b with
  | M1, M1 | M5, M5 | M15, M15 | M30, M30 | H1, H1 | H4, H4 | D1, D1
  | W1, W1 | MN1, MN1 => true
  | _, _ => false
  end.

(** A record of the array [copy_rates_from_pos] returns; [time] is in
    seconds.  [real_volume] is [None] when the array has no such column. *)
Record raw_bar : Type := {
  time : Z;
  open : float;
  high : float;
  low : float;
  close : float;
  tick_volume : Z;
  spread : Z;
  real_volume : option Z
}.

(** A Python number: the [real_volume] column holds the source's integers,
    or the float 0.0 the function fills in. *)
Inductive number : Type :=
  | NInt (n : Z)
  | NFloat (x : float).

(** A data row of a bar log, in [OHLCV_COLUMNS] order. *)
Record bar_row : Type := {
  bar : raw_bar;               (* time, open, high, low, close, tick_volume, spread *)
  bar_time_dt : string;
  real_volume_filled : number
}.

(** [pd.to_datetime(t, unit="s", utc=True).strftime("%Y-%m-%dT%H:%M:%SZ")]. *)
Definition strftime_seconds (t : Z) : string :=
  let dt := t * 1000000 in
  let '(y, m, d) := civil_from_days (dt_days dt) in
  zero_padded 4 y ++ "-" ++ zero_padded 2 m ++ "-" ++ zero_padded 2 d ++ "T"
  ++ zero_padded 2 (dt_hour dt) ++ ":" ++ zero_padded 2 (dt_minute dt) ++ ":"
  ++ zero_padded 2 (dt_second dt) ++ "Z".

Definition bar_to_row (b : raw_bar) : bar_row :=
  {| bar := b;
     bar_time_dt := strftime_seconds (time b);
     real_volume_filled :=
       match real_volume b with Some v => NInt v | None => NFloat 0%float end |}.

Inductive ohlcv_event : Type :=
  | CopyRates (tf : timeframe) (count : Z)    (* the call to the data source *)
  | LogSyncError (tf : timeframe).

(** The module-level cursor dictionary [ohlcv_last_bar], the bar logs, one
    per timeframe, and what the sync did towards the outside. *)
Record bar_store : Type := {
  ohlcv_last_bar : timeframe -> Z;
  ohlcv_csv : timeframe -> csv bar_row;
  ohlcv_trace : list ohlcv_event
}.

(** How [copy_rates_from_pos] answers. *)
Inductive rates_outcome : Type :=
  | RatesRaised
  | RatesNone
  | Rates (rates : list raw_bar).

Definition update {A} (f : timeframe -> A) (tf : timeframe) (v : A)
  : timeframe -> A :=
  fun k => if timeframe_eqb k tf then v else f k.

(** [int(df["time"].max())] of a frame with at least one row. *)
Definition time_max (rates : list raw_bar) : Z :=
  match rates with
  | [] => 0
  | b :: rest => fold_left Z.max (map time rest) (time b)
  end.

(** [sync_ohlcv].  An exception of the call is logged and absorbed; the
    frame work after a successful call does not raise, and the append is taken
    to succeed.  The filter reads the cursor, the new cursor is the maximum
    over the whole answer. *)
Definition sync_ohlcv (tf : timeframe) (answer : rates_outcome) (s : bar_store)
  : bar_store :=
  let called := (ohlcv_trace s ++ [CopyRates tf (OHLCV_LOOKBACK tf)])%list in
  let unchanged (tr : list ohlcv_event) :=
    {| ohlcv_last_bar := ohlcv_last_bar s; ohlcv_csv := ohlcv_csv s;
       ohlcv_trace := tr |} in
  match answer with
  | RatesRaised => unchanged (called ++ [LogSyncError tf])%list
  | RatesNone => unchanged called
  | Rates rates =>
      if Nat.eqb (List.length rates) 0 then unchanged called
      else
        let df := map bar_to_row rates in
        let new_df := filter (fun r => ohlcv_last_bar s tf <? time (bar r)) df in
        if Nat.eqb (List.length new_df) 0 then unchanged called
        else
          {| ohlcv_last_bar := update (ohlcv_last_bar s) tf (time_max rates);
             ohlcv_csv :=
               update (ohlcv_csv s) tf (to_csv_append (ohlcv_csv s tf) new_df);
             ohlcv_trace := called |}
  end.

(** [sync_all_ohlcv], given what the source answers for each timeframe. *)
Definition sync_all_ohlcv (answers : timeframe -> rates_outcome) (s : bar_store)
  : bar_store :=
  fold_left (fun acc tf => sync_ohlcv tf (answers tf) acc) TIMEFRAMES s.

(** The store when the module is loaded: every cursor at 0, the logs as the
    previous runs left them. *)
Definition ohlcv_start (files : timeframe -> csv bar_row) : bar_store :=
  {| ohlcv_last_bar := fun _ => 0; ohlcv_csv := files; ohlcv_trace := [] |}.

(** Successive syncs of one timeframe. *)
Definition sync_repeatedly (tf : timeframe) (answers : list rates_outcome)
    (s : bar_store) : bar_store :=
  fold_left (fun acc answer => sync_ohlcv tf answer acc) answers s.

(* ------------------------------------------------------------------ *)
(** ** Depth snapshots *)

Inductive book_type : Type :=
  | BOOK_TYPE_SELL | BOOK_TYPE_BUY | BOOK_TYPE_SELL_MARKET | BOOK_TYPE_BUY_MARKET.

(** An entry of the tuple [market_book_get] returns. *)
Record book_entry : Type := {
  entry_type : book_type;
  entry_price : float;
  entry_volume : Z
}.

(** A data row of the depth log, in [DOM_COLUMNS] order. *)
Record dom_row : Type := {
  dom_time_msc : Z;
  dom_time_dt : string;
  dom_type : string;
  dom_price : float;
  dom_volume : Z
}.

Inductive dom_event : Type :=
  | MarketBookCall            (* market_book_add, then market_book_get *)
  | LogDomDisabled
  | LogDomError.

(** [dom_supported]: [None] until detected, then [Some true] or [Some false]. *)
Record dom_store : Type := {
  dom_supported : option bool;
  dom_csv : csv dom_row;
  dom_trace : list dom_event
}.

(** How the two calls to the source end, and the clock read after them. *)
Inductive book_outcome : Type :=
  | BookRaised
  | BookNone
  | Book (entries : list book_entry).

Record dom_input : Type := {
  book : book_outcome;
  dom_clock_msc : Z      (* int(time.time() * 1000) *)
}.

Definition book_side (e : book_entry) : string :=
  match entry_type e with
  | BOOK_TYPE_BUY => "BID"
  | _ => "ASK"
  end.

(** [snap_dom].  Nothing is done, not even a call, once the flag is False;
    an absent or empty book turns an undetermined flag to False and leaves a
    True one alone; an exception of the calls is logged and absorbed. *)
Definition snap_dom (i : dom_input) (s : dom_store) : dom_store :=
  match dom_supported s with
  | Some false => s
  | _ =>
      let called := (dom_trace s ++ [MarketBookCall])%list in
      let empty_book :=
        match dom_supported s with
        | None =>
            {| dom_supported := Some false; dom_csv := dom_csv s;
               dom_trace := (called ++ [LogDomDisabled])%list |}
        | _ =>
            {| dom_supported := dom_supported s; dom_csv := dom_csv s;
               dom_trace := called |}
        end in
      match book i with
      | BookRaised =>
          {| dom_supported := dom_supported s; dom_csv := dom_csv s;
             dom_trace := (called ++ [LogDomError])%list |}
      | BookNone => empty_book
      | Book entries =>
          if Nat.eqb (List.length entries) 0 then empty_book
          else
            let t_msc := dom_clock_msc i in
            let t_dt := isoformat (msc_to_dt t_msc) in
            let rows :=
              map (fun entry =>
                     {| dom_time_msc := t_msc; dom_time_dt := t_dt;
                        dom_type := book_side entry;
                        dom_price := entry_price entry;
                        dom_volume := entry_volume entry |})
                  entries in
            {| dom_supported := Some true;
               dom_csv := to_csv_append (dom_csv s) rows;
               dom_trace := called |}
      end
  end.

(** Successive snapshots. *)
Definition snap_repeatedly (inputs : list dom_input) (s : dom_store) : dom_store :=
  fold_left (fun acc i => snap_dom i acc) inputs s.

(** The store when the module is loaded. *)
Definition dom_start (file : csv dom_row) : dom_store :=
  {| dom_supported := None; dom_csv := file; dom_trace := [] |}.

(* ------------------------------------------------------------------ *)
(** ** Vocabulary of the properties *)

(** The stored values Python can compare with an [int]. *)
Definition is_number (v : json) : bool :=
  match v with
  | JInt _ | JFloat _ | JBool _ => true
  | _ => false
  end.

(** The enrichment row by row: what one tick becomes. *)
Definition enrich (t : raw_tick) : enriched_tick :=
  let dts := msc_to_dt (time_msc t) in
  {| tick := t;
     volume_real_filled :=
       match volume_real t with Some v => v | None => 0%float end;
     time_dt := isoformat (msc_to_dt (time_msc t));
     flag_desc := flag_description (flags t);
     spread_pct := np_round ((ask t - bid t) / bid t * 100)%float 6;
     mid := np_round ((bid t + ask t) / 2)%float 5;
     bid_ask_imbalance := np_round (bid t / ask t)%float 6;
     session_tag := get_session dts;
     day_of_week := day_name dts;
     hour_utc := dt_hour dts |}.

(** [0; 1; ...; n-1]. *)
Definition Zrange (n : nat) : list Z := map Z.of_nat (seq 0 n).

(** The float chain and the exact chain give one label at [hour]:[minute]. *)
Definition classifiers_agree (hour minute : Z) : bool :=
  session_eqb
    (session_of_hour (float_of_Z hour + float_of_Z minute / 60)%float)
    (session_of_exact_hour (inject_Z hour + inject_Z minute / 60)%Q).

(** The label by whole hours: the minute never moves a reading across a bound. *)
Definition classified_by_hour (hour : Z) : session :=
  if (12 <=? hour) && (hour <? 16) then LondonNY_Overlap
  else if (7 <=? hour) && (hour <? 12) then London
  else if (16 <=? hour) && (hour <? 21) then NewYork
  else Asia.

(** How often the label changes along [labels], starting from [held]. *)
Fixpoint label_changes (held : option session) (labels : list session) : nat :=
  match labels with
  | [] => O
  | l :: rest =>
      ((if option_session_eqb (Some l) held then 0 else 1)
       + label_changes (Some l) rest)%nat
  end.

(** The label held after a run of checks over [labels]. *)
Definition held_after (held : option session) (labels : list session)
  : option session :=
  fold_left (fun _ l => Some l) labels held.

(** Number of rows a log holds. *)
Definition row_count {A} (f : csv A) : nat := List.length (csv_rows f).

(** The iteration runs the guarded "process & write" body. *)
Definition ingests (w : world) (i : cycle_input) : bool :=
  match fetched i with
  | FetchTicks ticks_raw =>
      (0 <? Z.of_nat (List.length ticks_raw))
      && (last_time_msc w <? time_msc_max ticks_raw)
  | _ => false
  end.

(** The iteration takes the forced-reset branch. *)
Definition forces_reset (w : world) (i : cycle_input) : bool :=
  match fetched i with
  | FetchRaised => MAX_FAILS <=? fail_count w + 1
  | _ => false
  end.

(** No iteration of the run ingests a batch. *)
Fixpoint no_ingest (w : world) (inputs : list cycle_input) : Prop :=
  match inputs with
  | [] => True
  | i :: rest => ingests w i = false /\ no_ingest (cycle w i) rest
  end.

(** Every forced reset of the run happens at a clock reading whose target
    [now - 1000] is not behind the watermark of that moment. *)
Fixpoint resets_forward (w : world) (inputs : list cycle_input) : Prop :=
  match inputs with
  | [] => True
  | i :: rest =>
      (forces_reset w i = true -> last_time_msc w <= clock_msc i - 1000)
      /\ resets_forward (cycle w i) rest
  end.

(** A failing iteration, and one that delivers [ticks_raw]. *)
Definition failing (now_msc : Z) : cycle_input :=
  {| fetched := FetchRaised; clock_msc := now_msc;
     clock_utc := msc_to_dt now_msc; state_write := Written |}.

Definition delivering (ticks_raw : list raw_tick) (now_msc : Z) : cycle_input :=
  {| fetched := FetchTicks ticks_raw; clock_msc := now_msc;
     clock_utc := msc_to_dt now_msc; state_write := Written |}.

(** A quote at [time_msc] with both sides changed (flags BID|ASK). *)
Definition quote (time_msc : Z) (bid ask : float) : raw_tick :=
  {| time_msc := time_msc; bid := bid; ask := ask; last := 0%float;
     volume := 0; volume_real := Some 0%float; flags := 6 |}.

(** Rows of a session log that follow one another: each carries the label
    held before it as [prev], and a label different from it. *)
Fixpoint chained (held : option session) (rows : list session_event) : Prop :=
  match rows with
  | [] => True
  | r :: rest =>
      ev_prev r = held /\ held <> Some (ev_session r)
      /\ chained (Some (ev_session r)) rest
  end.

(** The label held after the rows. *)
Definition held_by (held : option session) (rows : list session_event)
  : option session :=
  fold_left (fun _ r => Some (ev_session r)) rows held.

(** No iteration of the run takes the forced-reset branch. *)
Fixpoint no_forced_reset (w : world) (inputs : list cycle_input) : Prop :=
  match inputs with
  | [] => True
  | i :: rest => forces_reset w i = false /\ no_forced_reset (cycle w i) rest
  end.

(** The six flag bits the decoder looks at: 0x02 | 0x04 | ... | 0x40. *)
Definition FLAG_BITS : Z := 126.

(** Two flag words have the same description exactly when they agree on
    the six bits (as a check on a pair of words). *)
Definition description_tells_bits (x y : Z) : bool :=
  Bool.eqb (String.eqb (flag_description x) (flag_description y))
           (Z.land x FLAG_BITS =? Z.land y FLAG_BITS).

(** The rows of the bar log of [tf]. *)
Definition bar_rows (s : bar_store) (tf : timeframe) : list bar_row :=
  csv_rows (ohlcv_csv s tf).

(** How many calls to the depth source a trace records. *)
Definition book_calls (tr : list dom_event) : nat :=
  List.length (filter (fun e => match e with MarketBookCall => true | _ => false end) tr).

(** The first answer of the source that is not an exception. *)
Fixpoint first_answer (inputs : list dom_input) : option book_outcome :=
  match inputs with
  | [] => None
  | i :: rest =>
      match book i with
      | BookRaised => first_answer rest
      | answer => Some answer
      end
  end.

Definition is_empty_book (answer : book_outcome) : bool :=
  match answer with
  | BookRaised => false
  | BookNone => true
  | Book entries => Nat.eqb (List.length entries) 0
  end.

(** The requests to the bar source a trace records, in order. *)
Fixpoint requests (tr : list ohlcv_event) : list (timeframe * Z) :=
  match tr with
  | [] => []
  | CopyRates tf count :: rest => (tf, count) :: requests rest
  | LogSyncError _ :: rest => requests rest
  end.

(** The depth inputs that end in an exception. *)
Definition book_raised (i : dom_input) : Prop := book i = BookRaised.

(* ================================================================== *)
(** * Properties *)

(* ------------------------------------------------------------------ *)
(** ** The library models on known values *)

Example isoformat_values :
  isoformat (msc_to_dt 1700000000000) = "2023-11-14T22:13:20+00:00"
  /\ isoformat (msc_to_dt 1700053200001) = "2023-11-15T13:00:00.001000+00:00"
  /\ isoformat (msc_to_dt 951782400000) = "2000-02-29T00:00:00+00:00"
  /\ isoformat (msc_to_dt (-1)) = "1969-12-31T23:59:59.999000+00:00".
Proof. repeat split. Qed.

Example day_name_values :
  day_name (msc_to_dt 0) = "Thursday"
  /\ day_name (msc_to_dt 1700000000000) = "Tuesday"
  /\ day_name (msc_to_dt 1700053200001) = "Wednesday".
Proof. repeat split. Qed.

Example rint_ties_to_even :
  rint 0.5 = 0%float /\ rint 1.5 = 2%float /\ rint 2.5 = 2%float
  /\ rint (-1.5) = (-2)%float /\ rint 15789.473684208133 = 15789%float.
Proof. repeat split. Qed.

Example flag_description_values :
  flag_description 0 = "TICK"
  /\ flag_description 6 = "BID|ASK"
  /\ flag_description 126 = "BID|ASK|LAST|VOLUME|BUY|SELL"
  /\ flag_description 1 = "TICK".
Proof. repeat split. Qed.

(* ------------------------------------------------------------------ *)
(** ** Session classifier *)

Lemma Zrange_In (n : nat) (z : Z) : 0 <= z < Z.of_nat n -> In z (Zrange n).
Proof.
  intros Hz. unfold Zrange. apply in_map_iff.
  exists (Z.to_nat z). split; [lia | apply in_seq; lia].
Qed.

Lemma dt_hour_range (dt : datetime) : 0 <= dt_hour dt < 24.
Proof. unfold dt_hour. apply Z.mod_pos_bound. lia. Qed.

Lemma dt_minute_range (dt : datetime) : 0 <= dt_minute dt < 60.
Proof. unfold dt_minute. apply Z.mod_pos_bound. lia. Qed.

Lemma session_eqb_eq (a b : session) : session_eqb a b = true <-> a = b.
Proof. destruct a, b; simpl; split; congruence. Qed.

Lemma session_eqb_refl (a : session) : session_eqb a a = true.
Proof. now destruct a. Qed.

(** All 24 x 60 clock readings, by evaluation of both chains. *)
Lemma classifiers_agree_everywhere :
  forallb (fun hour => forallb (classifiers_agree hour) (Zrange 60)) (Zrange 24) = true.
Proof. vm_compute. reflexivity. Qed.

Lemma classifiers_agree_at (hour minute : Z) :
  0 <= hour < 24 -> 0 <= minute < 60 -> classifiers_agree hour minute = true.
Proof.
  intros Hh Hm.
  pose proof classifiers_agree_everywhere as Hall.
  rewrite forallb_forall in Hall.
  specialize (Hall hour (Zrange_In 24 hour Hh)).
  rewrite forallb_forall in Hall.
  exact (Hall minute (Zrange_In 60 minute Hm)).
Qed.

Lemma get_session_exact (dt : datetime) :
  get_session dt = session_of_exact_hour (exact_hour dt).
Proof.
  apply session_eqb_eq.
  exact (classifiers_agree_at _ _ (dt_hour_range dt) (dt_minute_range dt)).
Qed.

Lemma by_hour_everywhere :
  forallb (fun hour =>
             forallb (fun minute =>
                        session_eqb
                          (session_of_hour (float_of_Z hour + float_of_Z minute / 60)%float)
                          (classified_by_hour hour))
                     (Zrange 60))
          (Zrange 24) = true.
Proof. vm_compute. reflexivity. Qed.

Lemma get_session_by_hour (dt : datetime) :
  get_session dt = classified_by_hour (dt_hour dt).
Proof.
  apply session_eqb_eq.
  pose proof by_hour_everywhere as Hall.
  rewrite forallb_forall in Hall.
  specialize (Hall _ (Zrange_In 24 _ (dt_hour_range dt))).
  rewrite forallb_forall in Hall.
  exact (Hall _ (Zrange_In 60 _ (dt_minute_range dt))).
Qed.

(** C6. For every UTC instant, [get_session], which computes
    h = hour + minute/60 in floating point, returns the label the priority
    chain gives on the exact h: LondonNY_Overlap when 12 <= h < 16, otherwise
    London when 7 <= h < 16, otherwise NewYork when 12 <= h < 21, otherwise
    Asia; and every instant whose UTC hour is 13 is LondonNY_Overlap. *)
Theorem get_session_chain (dt : datetime) :
  get_session dt = session_of_exact_hour (exact_hour dt)
  /\ (dt_hour dt = 13 -> get_session dt = LondonNY_Overlap).
Proof.
  split; [apply get_session_exact |].
  intros H13. rewrite get_session_by_hour, H13. reflexivity.
Qed.

Lemma get_session_chain_witness :
  dt_hour (msc_to_dt 1700055000000) = 13
  /\ (exact_hour (msc_to_dt 1700055000000) == 27 # 2)%Q
  /\ get_session (msc_to_dt 1700055000000) = LondonNY_Overlap.
Proof.
  split; [reflexivity |]. split; [reflexivity |].
  apply (proj2 (get_session_chain (msc_to_dt 1700055000000))). reflexivity.
Defined.

(* ------------------------------------------------------------------ *)
(** ** Session transitions *)

Lemma option_session_eqb_eq (a b : option session) :
  option_session_eqb a b = true <-> a = b.
Proof.
  destruct a as [x|], b as [y|]; simpl; try (split; congruence).
  rewrite session_eqb_eq. split; congruence.
Qed.

Lemma row_count_append {A} (f : csv A) (rows : list A) :
  row_count (to_csv_append f rows) = (row_count f + List.length rows)%nat.
Proof. unfold row_count, to_csv_append. simpl. apply length_app. Qed.

(** One call: silent when the label is the held one, otherwise one row (and
    one console line) carrying the old label, and the new label is held. *)
Lemma check_session_change_step (dt : datetime) (w : world) :
  (current_session w = Some (get_session dt) -> check_session_change dt w = w)
  /\ (current_session w <> Some (get_session dt) ->
      csv_rows (session_csv (check_session_change dt w))
      = (csv_rows (session_csv w)
           ++ [{| ev_time_dt := isoformat dt; ev_session := get_session dt;
                  ev_prev := current_session w; ev_weekday := day_name dt |}])%list)
  /\ current_session (check_session_change dt w) = Some (get_session dt).
Proof.
  unfold check_session_change.
  destruct (option_session_eqb (Some (get_session dt)) (current_session w)) eqn:E.
  - apply option_session_eqb_eq in E. repeat split; congruence.
  - repeat split; try reflexivity.
    intros H. rewrite H in E.
    assert (option_session_eqb (Some (get_session dt)) (Some (get_session dt)) = true)
      by (apply option_session_eqb_eq; reflexivity).
    congruence.
Qed.

Lemma check_session_change_count (dt : datetime) (w : world) :
  row_count (session_csv (check_session_change dt w))
  = (row_count (session_csv w)
     + label_changes (current_session w) [get_session dt])%nat.
Proof.
  unfold check_session_change. cbn [label_changes].
  destruct (option_session_eqb (Some (get_session dt)) (current_session w)).
  - lia.
  - cbn [session_csv]. rewrite row_count_append. cbn [List.length]. lia.
Qed.

(** The rows a run of checks appends are the label changes along it. *)
Lemma observe_count (instants : list datetime) :
  forall w,
    row_count (session_csv (observe w instants))
    = (row_count (session_csv w)
       + label_changes (current_session w) (map get_session instants))%nat.
Proof.
  induction instants as [|dt rest IH]; intros w.
  - simpl. lia.
  - change (observe w (dt :: rest)) with (observe (check_session_change dt w) rest).
    rewrite IH, check_session_change_count.
    destruct (check_session_change_step dt w) as (_ & _ & Hheld).
    rewrite Hheld. simpl. lia.
Qed.

Lemma label_changes_constant (l : session) (labels : list session) :
  (forall x, In x labels -> x = l) -> label_changes (Some l) labels = O.
Proof.
  induction labels as [|x rest IH]; intros Hall; [reflexivity |].
  assert (x = l) by (apply Hall; now left). subst x.
  simpl. rewrite session_eqb_refl. apply IH.
  intros y Hy. apply Hall. now right.
Qed.

Lemma label_changes_first (held : option session) (l : session) (labels : list session) :
  labels <> [] -> (forall x, In x labels -> x = l) ->
  label_changes held labels
  = if option_session_eqb (Some l) held then O else 1%nat.
Proof.
  destruct labels as [|x rest]; [congruence |]. intros _ Hall.
  assert (x = l) by (apply Hall; now left). subst x.
  simpl. rewrite label_changes_constant; [lia |].
  intros y Hy. apply Hall. now right.
Qed.

Lemma label_changes_app (held : option session) (xs ys : list session) :
  label_changes held (xs ++ ys)
  = (label_changes held xs + label_changes (held_after held xs) ys)%nat.
Proof.
  revert held. induction xs as [|x rest IH]; intros held; [reflexivity |].
  simpl app. cbn [label_changes]. rewrite IH. simpl. lia.
Qed.

Lemma held_after_constant (l : session) (labels : list session) :
  forall held,
    labels <> [] -> (forall x, In x labels -> x = l) ->
    held_after held labels = Some l.
Proof.
  induction labels as [|x rest IH]; intros held; [congruence |]. intros _ Hall.
  assert (x = l) by (apply Hall; now left). subst x.
  destruct rest as [|y rest']; [reflexivity |].
  change (held_after held (l :: y :: rest')) with (held_after (Some l) (y :: rest')).
  apply IH; [congruence |]. intros z Hz. apply Hall. now right.
Qed.

Lemma labels_of (instants : list datetime) (l : session) :
  (forall d, In d instants -> get_session d = l) ->
  forall x, In x (map get_session instants) -> x = l.
Proof.
  intros Hall x Hx. apply in_map_iff in Hx. destruct Hx as (d & <- & Hd).
  now apply Hall.
Qed.

(** C7 (as the code has it). The check appends a SessionEvent exactly when
    the classified session differs from the held label, and then holds the
    new label.  With the held label equal to the first label, instants of one
    label append no event and a sequence crossing one boundary appends exactly
    one.  From process start-up the held label is None, which differs from
    every session: the first observation is itself logged, so instants of one
    label append exactly one event and a sequence crossing one boundary
    appends exactly two. *)
Theorem session_edge_triggered
    (w : world) (before after : list datetime) (l1 l2 : session) :
  before <> [] -> after <> [] -> l1 <> l2 ->
  (forall d, In d before -> get_session d = l1) ->
  (forall d, In d after -> get_session d = l2) ->
  (current_session w = Some l1 ->
     session_csv (observe w before) = session_csv w
     /\ row_count (session_csv (observe w (before ++ after)))
        = (row_count (session_csv w) + 1)%nat)
  /\ (current_session w = None ->
     row_count (session_csv (observe w before))
     = (row_count (session_csv w) + 1)%nat
     /\ row_count (session_csv (observe w (before ++ after)))
        = (row_count (session_csv w) + 2)%nat)
  /\ (forall dt w0,
        (current_session w0 = Some (get_session dt) ->
         check_session_change dt w0 = w0)
        /\ (current_session w0 <> Some (get_session dt) ->
            csv_rows (session_csv (check_session_change dt w0))
            = (csv_rows (session_csv w0)
                 ++ [{| ev_time_dt := isoformat dt; ev_session := get_session dt;
                        ev_prev := current_session w0;
                        ev_weekday := day_name dt |}])%list)
        /\ current_session (check_session_change dt w0) = Some (get_session dt)).
Proof.
  intros Hb Ha Hne Hl1 Hl2.
  assert (Hm1 : map get_session before <> [])
    by (destruct before; simpl; congruence).
  assert (Hm2 : map get_session after <> [])
    by (destruct after; simpl; congruence).
  pose proof (labels_of before l1 Hl1) as Hc1.
  pose proof (labels_of after l2 Hl2) as Hc2.
  assert (Hcross : forall held,
             label_changes held (map get_session (before ++ after))
             = (label_changes held (map get_session before) + 1)%nat).
  { intros held. rewrite map_app, label_changes_app.
    rewrite (held_after_constant l1 _ held Hm1 Hc1).
    rewrite (label_changes_first (Some l1) l2 _ Hm2 Hc2).
    simpl. destruct (session_eqb l2 l1) eqn:E; [|reflexivity].
    apply session_eqb_eq in E. congruence. }
  split; [| split; [| exact check_session_change_step]]; intros Hheld.
  - split.
    + clear Hcross Hm1 Hc1. revert w Hheld.
      induction before as [|d rest IH]; [congruence |]. intros w Hheld.
      change (observe w (d :: rest)) with (observe (check_session_change d w) rest).
      assert (Hd : get_session d = l1) by (apply Hl1; now left).
      destruct (check_session_change_step d w) as (Hsame & _ & _).
      rewrite Hsame by congruence.
      destruct rest as [|d' rest']; [reflexivity |].
      apply IH; [congruence | | exact Hheld].
      intros x Hx. apply Hl1. now right.
    + rewrite observe_count, Hcross, Hheld.
      rewrite (label_changes_constant l1 _ Hc1). lia.
  - rewrite !observe_count, Hcross, Hheld.
    rewrite (label_changes_first None l1 _ Hm1 Hc1). simpl. lia.
Qed.

(** Two readings in the 13:00 hour and one at 16:00, from start-up: two rows. *)
Lemma session_edge_triggered_witness :
  let w := startup 1700053000000 None Absent None in
  let before := [msc_to_dt 1700053200000; msc_to_dt 1700053260000] in
  let after := [msc_to_dt 1700064000000] in
  row_count (session_csv (observe w before)) = 1%nat
  /\ row_count (session_csv (observe w (before ++ after))) = 2%nat.
Proof.
  refine (proj1 (proj2 (session_edge_triggered
                          (startup 1700053000000 None Absent None)
                          [msc_to_dt 1700053200000; msc_to_dt 1700053260000]
                          [msc_to_dt 1700064000000]
                          LondonNY_Overlap NewYork _ _ _ _ _)) eq_refl).
  - discriminate.
  - discriminate.
  - discriminate.
  - intros d [<- | [<- | []]]; reflexivity.
  - intros d [<- | []]; reflexivity.
Defined.

(** Against C7 as worded: from start-up, two instants of the same session
    (13:00 and 13:01 UTC) leave one SessionEvent in the log, not none. *)
Lemma startup_logs_first_observation :
  let w := startup 1700053000000 None Absent None in
  get_session (msc_to_dt 1700053200000) = get_session (msc_to_dt 1700053260000)
  /\ csv_rows (session_csv
                 (observe w [msc_to_dt 1700053200000; msc_to_dt 1700053260000]))
     = [ {| ev_time_dt := "2023-11-15T13:00:00+00:00";
            ev_session := LondonNY_Overlap;
            ev_prev := None;
            ev_weekday := "Wednesday" |} ].
Proof. split; reflexivity. Qed.

(* ------------------------------------------------------------------ *)
(** ** Watermark store *)

Lemma load_state_of_int (members : list (string * json)) (v now : Z) :
  dict_lookup "last_time_msc" members = Some (JInt v) ->
  load_state (Stored (JObj members)) now
  = Ok (JInt (if (v <=? 0) || (now <? v) then now - 2000 else v)).
Proof.
  intros Hv. unfold load_state. simpl. rewrite Hv. simpl.
  destruct (v <=? 0); simpl; [reflexivity |].
  destruct (now <? v); reflexivity.
Qed.

(** C5 (as the code has it). [load_state] absorbs exactly the two errors
    its [except] clause names: a missing state file and a file that is not
    JSON both give now - 2000 ms, as does a stored object without the key.  A
    stored integer watermark that is zero, negative or greater than the
    current time gives now - 2000 ms; one with 0 < v <= now is returned
    unchanged.  Any other error of the read is propagated, and so is the
    AttributeError of a document that is not an object and the TypeError of
    a stored value that is not a number. *)
Theorem load_state_clamps (now : Z) :
  load_state Absent now = Ok (JInt (now - 2000))
  /\ load_state (Damaged JSONDecodeError) now = Ok (JInt (now - 2000))
  /\ (forall members,
        dict_lookup "last_time_msc" members = None ->
        load_state (Stored (JObj members)) now = Ok (JInt (now - 2000)))
  /\ (forall members v,
        dict_lookup "last_time_msc" members = Some (JInt v) ->
        (v <= 0 \/ now < v ->
         load_state (Stored (JObj members)) now = Ok (JInt (now - 2000)))
        /\ (0 < v <= now ->
            load_state (Stored (JObj members)) now = Ok (JInt v)))
  /\ (forall e,
        e <> FileNotFoundError -> e <> JSONDecodeError ->
        load_state (Damaged e) now = Raise e)
  /\ (forall j,
        (forall members, j <> JObj members) ->
        load_state (Stored j) now = Raise AttributeError)
  /\ (forall members v,
        dict_lookup "last_time_msc" members = Some v -> is_number v = false ->
        load_state (Stored (JObj members)) now = Raise TypeError).
Proof.
  split; [reflexivity |]. split; [reflexivity |].
  split; [| split; [| split; [| split]]].
  - intros members Hnone. unfold load_state. simpl. rewrite Hnone. reflexivity.
  - intros members v Hv. rewrite (load_state_of_int _ _ _ Hv). split.
    + intros [Hle | Hgt].
      * apply Z.leb_le in Hle. rewrite Hle. reflexivity.
      * apply Z.ltb_lt in Hgt. rewrite Hgt, orb_true_r. reflexivity.
    + intros [Hpos Hle].
      replace (v <=? 0) with false by (symmetry; apply Z.leb_gt; lia).
      replace (now <? v) with false by (symmetry; apply Z.ltb_ge; lia).
      reflexivity.
  - intros e H1 H2. destruct e; try reflexivity; congruence.
  - intros j Hj. destruct j; try reflexivity. now elim (Hj members).
  - intros members v Hv Hnum. unfold load_state. simpl. rewrite Hv.
    destruct v; try discriminate; reflexivity.
Qed.

Lemma load_state_clamps_witness :
  let members := [("last_time_msc", JInt 1700000000000)] in
  load_state (Stored (JObj members)) 1700000005000 = Ok (JInt 1700000000000)
  /\ load_state (Stored (JObj members)) 1699999999000 = Ok (JInt 1699999997000)
  /\ load_state (Stored (JObj [("last_time_msc", JInt 0)])) 1700000005000
     = Ok (JInt 1700000003000).
Proof.
  split; [| split].
  - apply (proj1 (proj2 (proj2 (proj2 (load_state_clamps 1700000005000))))
             [("last_time_msc", JInt 1700000000000)] 1700000000000 eq_refl).
    lia.
  - apply (proj1 (proj2 (proj2 (proj2 (load_state_clamps 1699999999000))))
             [("last_time_msc", JInt 1700000000000)] 1700000000000 eq_refl).
    right. lia.
  - apply (proj1 (proj2 (proj2 (proj2 (load_state_clamps 1700000005000))))
             [("last_time_msc", JInt 0)] 0 eq_refl).
    left. lia.
Defined.

(** Against C5 as worded: three state files on which [load_state] raises: a
    JSON document that is not an object, a stored watermark that is not a
    number, and a file whose bytes do not decode. *)
Lemma load_state_propagates :
  load_state (Stored (JArr [])) 1700000005000 = Raise AttributeError
  /\ load_state (Stored (JObj [("last_time_msc", JNull)])) 1700000005000
     = Raise TypeError
  /\ load_state (Damaged UnicodeDecodeError) 1700000005000
     = Raise UnicodeDecodeError.
Proof. repeat split. Qed.

(* ------------------------------------------------------------------ *)
(** ** The loop iteration, field by field *)

Lemma fold_max_ge_init (l : list Z) : forall a, a <= fold_left Z.max l a.
Proof.
  induction l as [|x rest IH]; intros a; simpl; [lia |].
  specialize (IH (Z.max a x)). lia.
Qed.

Lemma fold_max_ge_each (l : list Z) :
  forall a x, In x l -> x <= fold_left Z.max l a.
Proof.
  induction l as [|y rest IH]; intros a x Hin; [contradiction |].
  simpl. destruct Hin as [-> | Hin].
  - pose proof (fold_max_ge_init rest (Z.max a x)). lia.
  - now apply IH.
Qed.

(** No row of a batch is later than the batch maximum. *)
Lemma time_msc_max_bounds (ticks_raw : list raw_tick) (t : raw_tick) :
  In t ticks_raw -> time_msc t <= time_msc_max ticks_raw.
Proof.
  destruct ticks_raw as [|t0 rest]; [contradiction |].
  intros [-> | Hin]; unfold time_msc_max.
  - apply fold_max_ge_init.
  - apply fold_max_ge_each. now apply in_map.
Qed.

(** Read across, the frame holds one enriched row per tick, in order. *)
Lemma process_ticks_rows (ticks_raw : list raw_tick) :
  frame_rows (process_ticks ticks_raw) = map enrich ticks_raw.
Proof.
  unfold frame_rows, process_ticks. cbn [source col_volume_real col_time_dt
    col_spread_pct col_mid col_bid_ask_imbalance col_flag_desc col_session
    col_day_of_week col_hour_utc].
  induction ticks_raw as [|t rest IH]; [reflexivity |].
  cbn [map zip_with rows_across]. rewrite IH. reflexivity.
Qed.

Lemma process_ticks_len (ticks_raw : list raw_tick) :
  frame_len (process_ticks ticks_raw) = List.length ticks_raw.
Proof. reflexivity. Qed.

Lemma enriched_times (ticks_raw : list raw_tick) (limit : Z) :
  time_msc_max ticks_raw < limit ->
  Forall (fun e => time_msc (tick e) < limit) (map enrich ticks_raw).
Proof.
  intros Hmax. apply Forall_forall. intros e He.
  apply in_map_iff in He. destruct He as (t & <- & Ht).
  pose proof (time_msc_max_bounds _ _ Ht). simpl. lia.
Qed.

(** The guarded block on the two values the loop hands it: the bare list
    has length zero, and on an array neither [max] nor [process_ticks] is
    reached without rows. *)
Lemma process_batch_list (i : cycle_input) (w : world) :
  process_batch i EmptyList w = Ok w.
Proof. reflexivity. Qed.

Lemma process_batch_array (i : cycle_input) (records : list raw_tick) (w : world) :
  process_batch i (TickArray records) w
  = Ok (if 0 <? Z.of_nat (List.length records) then
          if last_time_msc w <? time_msc_max records
          then ingest i (time_msc_max records) (process_ticks records) w
          else w
        else w).
Proof.
  unfold process_batch. destruct records as [| t rest]; [reflexivity |].
  cbn [py_len py_time_msc_max py_process_ticks].
  destruct (0 <? Z.of_nat (List.length (t :: rest))); [| reflexivity].
  destruct (last_time_msc w <? time_msc_max (t :: rest)); reflexivity.
Qed.

(** The failure path touches the counter, possibly the watermark, and the
    console; no file and no other variable. *)
Lemma cycle_failed (w : world) (i : cycle_input) :
  fetched i = FetchRaised ->
  let attempt := fail_count w + 1 in
  fail_count (cycle w i) = (if MAX_FAILS <=? attempt then 0 else attempt)
  /\ last_time_msc (cycle w i)
     = (if MAX_FAILS <=? attempt then clock_msc i - 1000 else last_time_msc w)
  /\ trace (cycle w i)
     = (trace w ++ [LogFetchFailed attempt MAX_FAILS; Sleep FETCH_BACKOFF]
          ++ (if MAX_FAILS <=? attempt then [LogTimestampReset MAX_FAILS] else []))%list
  /\ total_ticks (cycle w i) = total_ticks w
  /\ current_session (cycle w i) = current_session w
  /\ tick_csv (cycle w i) = tick_csv w
  /\ state_json (cycle w i) = state_json w
  /\ session_csv (cycle w i) = session_csv w.
Proof.
  intros Hf attempt. unfold cycle. rewrite Hf.
  unfold fetch_failed, reset_if_exhausted, count_failure. cbn.
  fold attempt. destruct (MAX_FAILS <=? attempt); cbn; repeat split;
    try reflexivity; now rewrite <- app_assoc.
Qed.

(** An iteration whose fetch returned but which does not ingest: only the
    counter (zeroed) and the console change. *)
Lemma cycle_skipped (w : world) (i : cycle_input) :
  fetched i <> FetchRaised -> ingests w i = false ->
  fail_count (cycle w i) = 0
  /\ last_time_msc (cycle w i) = last_time_msc w
  /\ total_ticks (cycle w i) = total_ticks w
  /\ current_session (cycle w i) = current_session w
  /\ tick_csv (cycle w i) = tick_csv w
  /\ state_json (cycle w i) = state_json w
  /\ session_csv (cycle w i) = session_csv w.
Proof.
  intros Hf Hno. unfold cycle, ingests in *.
  destruct (fetched i) as [| err | ticks_raw]; [congruence | |].
  - destruct ((err =? 0) || (err =? 1)); cbn; repeat split; reflexivity.
  - rewrite process_batch_array. cbn [last_time_msc set_fail_count].
    destruct (0 <? Z.of_nat (List.length ticks_raw)); simpl in Hno.
    + rewrite Hno. cbn. repeat split; reflexivity.
    + cbn. repeat split; reflexivity.
Qed.

(** What the session check and the state write leave alone. *)
Lemma check_session_change_frame (dt : datetime) (w : world) :
  last_time_msc (check_session_change dt w) = last_time_msc w
  /\ fail_count (check_session_change dt w) = fail_count w
  /\ total_ticks (check_session_change dt w) = total_ticks w
  /\ tick_csv (check_session_change dt w) = tick_csv w
  /\ state_json (check_session_change dt w) = state_json w.
Proof.
  unfold check_session_change.
  destruct (option_session_eqb (Some (get_session dt)) (current_session w));
    repeat split; reflexivity.
Qed.

Lemma save_state_frame (outcome : write_outcome) (now : datetime) (w : world) :
  last_time_msc (save_state outcome now w) = last_time_msc w
  /\ fail_count (save_state outcome now w) = fail_count w
  /\ total_ticks (save_state outcome now w) = total_ticks w
  /\ current_session (save_state outcome now w) = current_session w
  /\ tick_csv (save_state outcome now w) = tick_csv w
  /\ session_csv (save_state outcome now w) = session_csv w
  /\ state_json (save_state outcome now w)
     = match outcome with
       | Written | CloseFailed => Stored (state_record (last_time_msc w) now)
       | OpenFailed => state_json w
       | DumpFailed => Damaged JSONDecodeError
       end.
Proof. unfold save_state. destruct outcome; repeat split; reflexivity. Qed.

Lemma state_writable_written (i : cycle_input) :
  state_writable i = true -> state_write i = Written.
Proof. unfold state_writable. destruct (state_write i); congruence. Qed.

(** An ingesting iteration: rows appended, counter advanced, watermark one
    millisecond past the batch maximum, state written (or the file left as
    the failed write leaves it), session checked at the latest tick. *)
Lemma cycle_ingested (w : world) (i : cycle_input) (ticks_raw : list raw_tick) :
  fetched i = FetchTicks ticks_raw -> ingests w i = true ->
  fail_count (cycle w i) = 0
  /\ last_time_msc (cycle w i) = time_msc_max ticks_raw + 1
  /\ total_ticks (cycle w i) = total_ticks w + Z.of_nat (List.length ticks_raw)
  /\ current_session (cycle w i) = Some (get_session (msc_to_dt (time_msc_max ticks_raw)))
  /\ tick_csv (cycle w i) = to_csv_append (tick_csv w) (map enrich ticks_raw)
  /\ state_json (cycle w i)
     = match state_write i with
       | Written | CloseFailed =>
           Stored (state_record (time_msc_max ticks_raw + 1) (clock_utc i))
       | OpenFailed => state_json w
       | DumpFailed => Damaged JSONDecodeError
       end.
Proof.
  intros Hf Hyes. unfold ingests in Hyes. unfold cycle. rewrite Hf in *.
  apply andb_true_iff in Hyes. destruct Hyes as [Hn Hnew].
  rewrite process_batch_array. cbn [last_time_msc set_fail_count].
  rewrite Hn, Hnew. unfold end_of_iteration.
  assert (Happ : forall f, append_ticks f (process_ticks ticks_raw)
                           = to_csv_append f (map enrich ticks_raw)).
  { intros f. unfold append_ticks. rewrite process_ticks_rows, process_ticks_len.
    destruct ticks_raw; [discriminate | reflexivity]. }
  unfold ingest. rewrite Happ, process_ticks_len.
  match goal with
  | |- context [check_session_change ?dt ?w1] =>
      destruct (check_session_change_frame dt w1) as (Hc1 & Hc2 & Hc3 & Hc4 & Hc5);
      destruct (check_session_change_step dt w1) as (_ & _ & Hc6)
  end.
  match goal with
  | |- context [save_state ?b ?now ?w0] =>
      destruct (save_state_frame b now w0) as (Hs1 & Hs2 & Hs3 & _ & Hs5 & _ & Hs7)
  end.
  unfold emit. cbn [fail_count last_time_msc total_ticks current_session tick_csv state_json].
  rewrite Hc1, Hc2, Hc3, Hc4, Hc5, Hc6, Hs1, Hs2, Hs3, Hs5, Hs7.
  repeat split; reflexivity.
Qed.

Lemma cycle_cases (w : world) (i : cycle_input) :
  fetched i = FetchRaised
  \/ (fetched i <> FetchRaised /\ ingests w i = false)
  \/ (exists ticks_raw, fetched i = FetchTicks ticks_raw /\ ingests w i = true).
Proof.
  unfold ingests. destruct (fetched i) as [| err | ticks_raw] eqn:Hf.
  - now left.
  - right; left. split; [discriminate | reflexivity].
  - destruct ((0 <? Z.of_nat (List.length ticks_raw))
              && (last_time_msc w <? time_msc_max ticks_raw)) eqn:E.
    + right; right. now exists ticks_raw.
    + right; left. split; [discriminate | reflexivity].
Qed.

Lemma ingests_iff (w : world) (i : cycle_input) (ticks_raw : list raw_tick) :
  fetched i = FetchTicks ticks_raw ->
  (ingests w i = true <-> ticks_raw <> [] /\ last_time_msc w < time_msc_max ticks_raw).
Proof.
  intros Hf. unfold ingests. rewrite Hf, andb_true_iff, Z.ltb_lt, Z.ltb_lt.
  destruct ticks_raw as [|t rest]; simpl List.length.
  - split; [lia | intros [H _]; congruence].
  - split; intros [_ H]; (split; [|exact H]); [congruence | lia].
Qed.

Lemma run_app (w : world) (xs ys : list cycle_input) :
  run w (xs ++ ys) = run (run w xs) ys.
Proof. apply fold_left_app. Qed.

(* ------------------------------------------------------------------ *)
(** ** Failure counter and forced reset *)

(** C4 (as the code has it). In every iteration whose fetch raises an
    exception, the failure counter is incremented by exactly one: the attempt
    number logged is the old counter plus one, out of 5, and the back-off
    pause of 500 ms follows it; the iteration then leaves the counter at that
    value unless it has reached MAX_FAILS, when the reset of C3 is logged and
    the counter put back to zero.  In every
    iteration whose fetch returns, the counter is left at zero.  That
    includes the fetch that returns [None] with an error code of the
    terminal: the error is logged (codes 0 and 1 are not), but it is not
    counted, no back-off follows, and the watermark, the tick log and the
    state file are left as they were. *)
Theorem fetch_counter (w : world) (i : cycle_input) :
  (fetched i = FetchRaised ->
     cycle w i = reset_if_exhausted (clock_msc i) (count_failure w)
     /\ fail_count (count_failure w) = fail_count w + 1
     /\ (exists rest,
           trace (cycle w i)
           = (trace w ++ LogFetchFailed (fail_count w + 1) 5
                :: Sleep 500 :: rest)%list)
     /\ (fail_count w + 1 < 5 ->
         fail_count (cycle w i) = fail_count w + 1
         /\ trace (cycle w i)
            = (trace w ++ [LogFetchFailed (fail_count w + 1) 5; Sleep 500])%list)
     /\ (5 <= fail_count w + 1 ->
         fail_count (cycle w i) = 0
         /\ trace (cycle w i)
            = (trace w ++ [LogFetchFailed (fail_count w + 1) 5; Sleep 500;
                           LogTimestampReset 5])%list))
  /\ (fetched i <> FetchRaised -> fail_count (cycle w i) = 0)
  /\ (forall err,
        fetched i = FetchNone err ->
        fail_count (cycle w i) = 0
        /\ trace (cycle w i)
           = (trace w
                ++ (if (err =? 0) || (err =? 1) then [] else [LogMt5Error err])
                ++ [Sleep 250])%list
        /\ last_time_msc (cycle w i) = last_time_msc w
        /\ tick_csv (cycle w i) = tick_csv w
        /\ state_json (cycle w i) = state_json w).
Proof.
  split; [| split].
  - intros Hf. destruct (cycle_failed w i Hf) as (Hfc & _ & Htr & _).
    split; [| split; [| split; [| split]]].
    + unfold cycle. rewrite Hf. reflexivity.
    + reflexivity.
    + eexists. rewrite Htr. reflexivity.
    + intros Hbelow. rewrite Hfc, Htr.
      replace (MAX_FAILS <=? fail_count w + 1) with false;
        [split; reflexivity |].
      symmetry. apply Z.leb_gt. exact Hbelow.
    + intros Hmax. rewrite Hfc, Htr. apply Z.leb_le in Hmax.
      change MAX_FAILS with 5. rewrite Hmax. split; reflexivity.
  - intros Hf. destruct (cycle_cases w i) as [H | [[_ H] | (ticks_raw & Ht & H)]].
    + congruence.
    + apply (cycle_skipped w i Hf H).
    + apply (cycle_ingested w i ticks_raw Ht H).
  - intros err Hf. unfold cycle. rewrite Hf.
    destruct ((err =? 0) || (err =? 1)); cbn;
      repeat split; try reflexivity; now rewrite <- app_assoc.
Qed.

Lemma fetch_counter_witness :
  let w := set_fail_count 2 (startup 1700000000000 None Absent None) in
  (fail_count (cycle w (failing 1700000001000)) = 3
   /\ trace (cycle w (failing 1700000001000)) = [LogFetchFailed 3 5; Sleep 500])
  /\ fail_count (cycle w (delivering [] 1700000001000)) = 0.
Proof.
  split.
  - apply (proj1 (proj2 (proj2 (proj2 (proj1 (fetch_counter
                    (set_fail_count 2 (startup 1700000000000 None Absent None))
                    (failing 1700000001000)) eq_refl))))).
    simpl. lia.
  - apply (proj1 (proj2 (fetch_counter
                    (set_fail_count 2 (startup 1700000000000 None Absent None))
                    (delivering [] 1700000001000)))).
    discriminate.
Defined.

(** Against C4 as worded: after four counted failures the terminal answers
    [None] with error code -10004 (no connection).  The fetch resulted in an
    error, yet the counter is not incremented to five: it is put back to
    zero, the error is only logged, the pause is the ordinary one, and the
    forced reset that a fifth failure would bring does not happen. *)
Lemma mt5_error_resets_counter :
  let w := set_fail_count 4 (startup 1700000000000 None Absent None) in
  let i := {| fetched := FetchNone (-10004); clock_msc := 1700000001000;
              clock_utc := msc_to_dt 1700000001000; state_write := Written |} in
  fail_count w = 4
  /\ fail_count (cycle w i) = 0
  /\ last_time_msc (cycle w i) = last_time_msc w
  /\ trace (cycle w i) = [LogMt5Error (-10004); Sleep 250].
Proof. repeat split. Qed.

(** The failure that makes the counter reach MAX_FAILS. *)
Lemma reset_at_threshold (w : world) (i : cycle_input) :
  fetched i = FetchRaised -> MAX_FAILS <= fail_count w + 1 ->
  last_time_msc (cycle w i) = clock_msc i - 1000
  /\ fail_count (cycle w i) = 0
  /\ state_json (cycle w i) = state_json w
  /\ tick_csv (cycle w i) = tick_csv w.
Proof.
  intros Hf Hmax.
  destruct (cycle_failed w i Hf) as (Hfc & Hwm & _ & _ & _ & Htk & Hst & _).
  apply Z.leb_le in Hmax. rewrite Hmax in Hfc, Hwm. auto.
Qed.

(** A failure below the threshold: counted, watermark untouched. *)
Lemma failure_below_threshold (w : world) (i : cycle_input) :
  fetched i = FetchRaised -> fail_count w + 1 < MAX_FAILS ->
  last_time_msc (cycle w i) = last_time_msc w
  /\ fail_count (cycle w i) = fail_count w + 1.
Proof.
  intros Hf Hlow.
  destruct (cycle_failed w i Hf) as (Hfc & Hwm & _).
  apply Z.leb_gt in Hlow. rewrite Hlow in Hfc, Hwm. auto.
Qed.

(** C3. Five consecutive failing fetches, counted from zero: the first four
    leave the watermark alone and bring the counter to MAX_FAILS - 1; the
    fifth, on which the counter reaches MAX_FAILS (5), sets the in-memory
    watermark to the clock reading minus 1000 ms and the counter to zero.
    The same holds of any failing iteration that brings the counter to
    MAX_FAILS.  Operation then resumes from the reset watermark: a following
    batch whose maximum lies past it is ingested as usual. *)
Theorem forced_reset (w : world) (i1 i2 i3 i4 i5 : cycle_input) :
  fail_count w = 0 ->
  fetched i1 = FetchRaised -> fetched i2 = FetchRaised ->
  fetched i3 = FetchRaised -> fetched i4 = FetchRaised ->
  fetched i5 = FetchRaised ->
  let w4 := run w [i1; i2; i3; i4] in
  let w5 := cycle w4 i5 in
  last_time_msc w4 = last_time_msc w
  /\ fail_count w4 = MAX_FAILS - 1
  /\ last_time_msc w5 = clock_msc i5 - 1000
  /\ fail_count w5 = 0
  /\ (forall w' i',
        fetched i' = FetchRaised -> MAX_FAILS <= fail_count w' + 1 ->
        last_time_msc (cycle w' i') = clock_msc i' - 1000
        /\ fail_count (cycle w' i') = 0)
  /\ (forall j ticks_raw,
        fetched j = FetchTicks ticks_raw -> ticks_raw <> [] ->
        clock_msc i5 - 1000 < time_msc_max ticks_raw ->
        last_time_msc (cycle w5 j) = time_msc_max ticks_raw + 1
        /\ tick_csv (cycle w5 j)
           = to_csv_append (tick_csv w) (map enrich ticks_raw)).
Proof.
  intros H0 H1 H2 H3 H4 H5 w4 w5.
  assert (Hlow : forall k, 0 <= k < 4 -> k + 1 < MAX_FAILS)
    by (unfold MAX_FAILS; lia).
  destruct (failure_below_threshold w i1 H1) as [Ha1 Hb1];
    [rewrite H0; now apply Hlow |].
  destruct (failure_below_threshold (cycle w i1) i2 H2) as [Ha2 Hb2];
    [rewrite Hb1, H0; now apply Hlow |].
  destruct (failure_below_threshold (cycle (cycle w i1) i2) i3 H3) as [Ha3 Hb3];
    [rewrite Hb2, Hb1, H0; now apply Hlow |].
  destruct (failure_below_threshold (cycle (cycle (cycle w i1) i2) i3) i4 H4)
    as [Ha4 Hb4]; [rewrite Hb3, Hb2, Hb1, H0; now apply Hlow |].
  assert (Hw4 : w4 = cycle (cycle (cycle (cycle w i1) i2) i3) i4) by reflexivity.
  assert (Hwm4 : last_time_msc w4 = last_time_msc w) by (rewrite Hw4; congruence).
  assert (Hfc4 : fail_count w4 = MAX_FAILS - 1).
  { rewrite Hw4, Hb4, Hb3, Hb2, Hb1, H0. reflexivity. }
  assert (Hfiles : tick_csv w4 = tick_csv w).
  { rewrite Hw4.
    destruct (cycle_failed w i1 H1) as (_ & _ & _ & _ & _ & E1 & _).
    destruct (cycle_failed (cycle w i1) i2 H2) as (_ & _ & _ & _ & _ & E2 & _).
    destruct (cycle_failed (cycle (cycle w i1) i2) i3 H3)
      as (_ & _ & _ & _ & _ & E3 & _).
    destruct (cycle_failed (cycle (cycle (cycle w i1) i2) i3) i4 H4)
      as (_ & _ & _ & _ & _ & E4 & _).
    congruence. }
  destruct (reset_at_threshold w4 i5 H5) as (Hwm5 & Hfc5 & _ & Htk5);
    [rewrite Hfc4; lia |].
  fold w5 in Hwm5, Hfc5, Htk5.
  split; [exact Hwm4 |]. split; [exact Hfc4 |].
  split; [exact Hwm5 |]. split; [exact Hfc5 |]. split.
  - intros w' i' Hf' Hmax'.
    destruct (reset_at_threshold w' i' Hf' Hmax') as (Hwm' & Hfc' & _).
    split; assumption.
  - intros j ticks_raw Hj Hne Hnew.
    assert (Hing : ingests w5 j = true).
    { apply (ingests_iff w5 j ticks_raw Hj). split; [exact Hne |].
      rewrite Hwm5. exact Hnew. }
    destruct (cycle_ingested w5 j ticks_raw Hj Hing) as (_ & Hwm & _ & _ & Htk & _).
    split; [exact Hwm |]. rewrite Htk, Htk5, Hfiles. reflexivity.
Qed.

Lemma forced_reset_witness :
  let w := startup 1700000000000 None Absent None in
  let w4 := run w [failing 1700000001000; failing 1700000001500;
                   failing 1700000002000; failing 1700000002500] in
  let w5 := cycle w4 (failing 1700000003000) in
  last_time_msc w4 = 1700000000000
  /\ fail_count w4 = 4
  /\ last_time_msc w5 = 1700000002000
  /\ fail_count w5 = 0.
Proof.
  pose proof (forced_reset (startup 1700000000000 None Absent None)
                (failing 1700000001000) (failing 1700000001500)
                (failing 1700000002000) (failing 1700000002500)
                (failing 1700000003000)
                eq_refl eq_refl eq_refl eq_refl eq_refl eq_refl) as H.
  cbv zeta in H. destruct H as (H1 & H2 & H3 & H4 & _).
  repeat split; assumption.
Defined.

(* ------------------------------------------------------------------ *)
(** ** What the forced reset leaves on disk *)

Lemma quiet_cycle_files (w : world) (i : cycle_input) :
  ingests w i = false ->
  state_json (cycle w i) = state_json w /\ tick_csv (cycle w i) = tick_csv w.
Proof.
  intros Hq. destruct (cycle_cases w i) as [Hf | [[Hf _] | (t & _ & Hyes)]].
  - destruct (cycle_failed w i Hf) as (_ & _ & _ & _ & _ & Htk & Hst & _). auto.
  - destruct (cycle_skipped w i Hf Hq) as (_ & _ & _ & _ & Htk & Hst & _). auto.
  - congruence.
Qed.

Lemma quiet_run_files (inputs : list cycle_input) :
  forall w, no_ingest w inputs ->
            state_json (run w inputs) = state_json w
            /\ tick_csv (run w inputs) = tick_csv w.
Proof.
  induction inputs as [|i rest IH]; intros w Hq; [split; reflexivity |].
  destruct Hq as [Hi Hrest].
  change (run w (i :: rest)) with (run (cycle w i) rest).
  destruct (IH _ Hrest) as [Hst Htk].
  destruct (quiet_cycle_files w i Hi) as [Hst1 Htk1].
  split; congruence.
Qed.

Lemma load_saved_state (saved now : Z) (written_at : datetime) :
  0 < saved <= now ->
  load_state (Stored (state_record saved written_at)) now = Ok (JInt saved).
Proof.
  intros [Hpos Hle]. unfold state_record.
  rewrite (load_state_of_int _ saved now); [| reflexivity].
  replace (saved <=? 0) with false by (symmetry; apply Z.leb_gt; lia).
  replace (now <? saved) with false by (symmetry; apply Z.ltb_ge; lia).
  reflexivity.
Qed.

(** A clean shutdown is the other writer of the state file: it saves
    whatever watermark is in memory. *)
Lemma interrupt_saves_watermark (i : cycle_input) (w : world) :
  state_writable i = true ->
  state_json (on_interrupt i w)
  = Stored (state_record (last_time_msc w) (clock_utc i)).
Proof.
  intros Hwr. apply state_writable_written in Hwr.
  unfold on_interrupt, save_state. rewrite Hwr. reflexivity.
Qed.

(** A stored watermark outside 0 < v <= now is not resumed from. *)
Lemma load_clamped_state (saved now : Z) (written_at : datetime) :
  saved <= 0 \/ now < saved ->
  load_state (Stored (state_record saved written_at)) now = Ok (JInt (now - 2000)).
Proof.
  intros Hout. unfold state_record.
  rewrite (load_state_of_int _ saved now); [| reflexivity].
  destruct Hout as [Hneg | Hfut].
  - replace (saved <=? 0) with true by (symmetry; apply Z.leb_le; lia).
    reflexivity.
  - replace (now <? saved) with true by (symmetry; apply Z.ltb_lt; lia).
    now rewrite orb_true_r.
Qed.

(** C10 (as the code has it). The failing iteration that forces the reset
    moves only the in-memory watermark: it does not write the state file,
    and neither does any later iteration until one ingests a batch (a
    non-empty batch whose maximum exceeds the watermark), whose write then
    puts the new watermark on file, fails at [open] and leaves the file as
    it was, or fails later and leaves it cut short.  Until then the file is
    what it was before the reset, so a restart reads from it exactly what it
    would have read before the reset: the old persisted watermark when
    0 < saved <= now on the clock of the restart, and now - 2000 ms, not the
    persisted watermark, when the persisted watermark is ahead of that clock
    or not positive. *)
Theorem reset_not_persisted
    (w : world) (i : cycle_input) (quiet : list cycle_input) :
  fetched i = FetchRaised -> MAX_FAILS <= fail_count w + 1 ->
  no_ingest (cycle w i) quiet ->
  let w' := run (cycle w i) quiet in
  last_time_msc (cycle w i) = clock_msc i - 1000
  /\ state_json (cycle w i) = state_json w
  /\ state_json w' = state_json w
  /\ tick_csv w' = tick_csv w
  /\ (forall now, load_state (state_json w') now = load_state (state_json w) now)
  /\ (forall saved written_at now,
        state_json w = Stored (state_record saved written_at) ->
        0 < saved <= now ->
        load_state (state_json w') now = Ok (JInt saved))
  /\ (forall saved written_at now,
        state_json w = Stored (state_record saved written_at) ->
        saved <= 0 \/ now < saved ->
        load_state (state_json w') now = Ok (JInt (now - 2000)))
  /\ (forall j ticks_raw,
        fetched j = FetchTicks ticks_raw -> ingests w' j = true ->
        state_json (cycle w' j)
        = match state_write j with
          | Written | CloseFailed =>
              Stored (state_record (time_msc_max ticks_raw + 1) (clock_utc j))
          | OpenFailed => state_json w
          | DumpFailed => Damaged JSONDecodeError
          end).
Proof.
  intros Hf Hmax Hquiet w'.
  destruct (reset_at_threshold w i Hf Hmax) as (Hwm & _ & Hst & Htk).
  destruct (quiet_run_files quiet (cycle w i) Hquiet) as [Hst' Htk'].
  fold w' in Hst', Htk'.
  assert (Hdisk : state_json w' = state_json w) by congruence.
  split; [exact Hwm |]. split; [exact Hst |]. split; [exact Hdisk |].
  split; [congruence |]. split; [| split; [| split]].
  - intros now. now rewrite Hdisk.
  - intros saved written_at now Hfile Hvalid.
    rewrite Hdisk, Hfile. now apply load_saved_state.
  - intros saved written_at now Hfile Hout.
    rewrite Hdisk, Hfile. now apply load_clamped_state.
  - intros j ticks_raw Hj Hing.
    destruct (cycle_ingested w' j ticks_raw Hj Hing) as (_ & _ & _ & _ & _ & Hnew).
    rewrite Hnew, Hdisk. reflexivity.
Qed.

(** A saved watermark, four counted failures, the fifth with the clock at
    ...003000, then an empty poll: the file still yields the saved value to
    a restart whose clock has passed it, and now - 2000 ms to one whose clock
    has not. *)
Lemma reset_not_persisted_witness :
  let saved := Stored (state_record 1700000000000 (msc_to_dt 1700000000100)) in
  let w := set_fail_count 4 (startup 1700000000000 None saved None) in
  let w' := run (cycle w (failing 1700000003000)) [delivering [] 1700000003300] in
  last_time_msc (cycle w (failing 1700000003000)) = 1700000002000
  /\ state_json w' = saved
  /\ load_state (state_json w') 1700000004000 = Ok (JInt 1700000000000)
  /\ load_state (state_json w') 1699999999000 = Ok (JInt 1699999997000).
Proof.
  pose proof (reset_not_persisted
                (set_fail_count 4
                   (startup 1700000000000 None
                      (Stored (state_record 1700000000000 (msc_to_dt 1700000000100)))
                      None))
                (failing 1700000003000) [delivering [] 1700000003300]
                eq_refl) as H.
  cbv zeta in H.
  destruct H as (H1 & _ & H3 & _ & _ & H6 & H7 & _).
  - unfold MAX_FAILS. simpl. lia.
  - simpl. split; [reflexivity | exact I].
  - split; [exact H1 |]. split; [exact H3 |]. split.
    + apply (H6 1700000000000 (msc_to_dt 1700000000100) 1700000004000 eq_refl). lia.
    + apply (H7 1700000000000 (msc_to_dt 1700000000100) 1699999999000 eq_refl). lia.
Defined.

(** Against C10 as worded: the tick of a trade server whose clock runs two
    hours ahead is ingested and its watermark saved; five fetches fail and
    the reset moves the watermark in memory only.  The file still holds the
    saved watermark, yet a restart after a crash does not resume from it:
    that value is ahead of the logger's clock, and [load_state] gives
    now - 2000 ms. *)
Lemma crash_restart_not_from_persisted :
  let w := startup 1700000000000 None Absent None in
  let w1 := cycle w (delivering [quote 1700007200500 1900.00 1900.30] 1700000000600) in
  let w2 := run w1 [failing 1700000001500; failing 1700000002000;
                    failing 1700000002500; failing 1700000003000;
                    failing 1700000003500] in
  state_json w1 = Stored (state_record 1700007200501 (msc_to_dt 1700000000600))
  /\ last_time_msc w2 = 1700000002500
  /\ state_json w2 = state_json w1
  /\ load_state (state_json w2) 1700000004000 = Ok (JInt 1700000002000).
Proof. repeat split. Qed.

(* ------------------------------------------------------------------ *)
(** ** Dedup and the watermark *)

(** C2. The same non-empty batch fetched in two consecutive iterations:
    after the first, the batch maximum does not exceed the watermark, so the
    second does not ingest and leaves the tick log, the cumulative counter,
    the watermark (and the state file and session log) as they were; over the
    two iterations the rows of the batch enter the log once when the batch was
    new, and not at all otherwise. *)
Theorem dedup_idempotent
    (w : world) (i1 i2 : cycle_input) (ticks_raw : list raw_tick) :
  ticks_raw <> [] ->
  fetched i1 = FetchTicks ticks_raw -> fetched i2 = FetchTicks ticks_raw ->
  let w1 := cycle w i1 in
  let w2 := cycle w1 i2 in
  time_msc_max ticks_raw <= last_time_msc w1
  /\ ingests w1 i2 = false
  /\ tick_csv w2 = tick_csv w1
  /\ total_ticks w2 = total_ticks w1
  /\ last_time_msc w2 = last_time_msc w1
  /\ state_json w2 = state_json w1
  /\ session_csv w2 = session_csv w1
  /\ csv_rows (tick_csv w2)
     = (csv_rows (tick_csv w)
          ++ (if last_time_msc w <? time_msc_max ticks_raw
              then map enrich ticks_raw else []))%list.
Proof.
  intros Hne H1 H2 w1 w2.
  assert (Hnot2 : fetched i2 <> FetchRaised) by (rewrite H2; discriminate).
  assert (Hnot1 : fetched i1 <> FetchRaised) by (rewrite H1; discriminate).
  assert (Hseen : time_msc_max ticks_raw <= last_time_msc w1
                  /\ csv_rows (tick_csv w1)
                     = (csv_rows (tick_csv w)
                          ++ (if last_time_msc w <? time_msc_max ticks_raw
                              then map enrich ticks_raw else []))%list).
  { destruct (ingests w i1) eqn:E.
    - destruct (cycle_ingested w i1 ticks_raw H1 E) as (_ & Hwm & _ & _ & Htk & _).
      apply (ingests_iff w i1 ticks_raw H1) in E. destruct E as [_ Hnew].
      apply Z.ltb_lt in Hnew. rewrite Hnew.
      fold w1 in Hwm, Htk. rewrite Hwm, Htk. split; [lia | reflexivity].
    - destruct (cycle_skipped w i1 Hnot1 E) as (_ & Hwm & _ & _ & Htk & _).
      fold w1 in Hwm, Htk. rewrite Hwm, Htk.
      assert (Hold : ~ last_time_msc w < time_msc_max ticks_raw).
      { intros Hlt.
        assert (ingests w i1 = true)
          by (apply (ingests_iff w i1 ticks_raw H1); now split).
        congruence. }
      replace (last_time_msc w <? time_msc_max ticks_raw) with false
        by (symmetry; apply Z.ltb_ge; lia).
      split; [lia | now rewrite app_nil_r]. }
  destruct Hseen as [Hseen Hrows].
  assert (Hq : ingests w1 i2 = false).
  { destruct (ingests w1 i2) eqn:E; [| reflexivity].
    apply (ingests_iff w1 i2 ticks_raw H2) in E. lia. }
  destruct (cycle_skipped w1 i2 Hnot2 Hq) as (_ & Hwm & Htot & _ & Htk & Hst & Hse).
  fold w2 in Hwm, Htot, Htk, Hst, Hse.
  repeat split; try assumption. now rewrite Htk.
Qed.

Lemma dedup_idempotent_witness :
  let batch := [quote 1700053200000 1900.00 1900.30;
                quote 1700053200001 1900.10 1900.35] in
  let w := startup 1700053000000 None Absent None in
  let w1 := cycle w (delivering batch 1700053200100) in
  let w2 := cycle w1 (delivering batch 1700053200350) in
  tick_csv w2 = tick_csv w1
  /\ total_ticks w2 = total_ticks w1
  /\ last_time_msc w2 = last_time_msc w1
  /\ csv_rows (tick_csv w2) = map enrich batch.
Proof.
  pose proof (dedup_idempotent
                (startup 1700053000000 None Absent None)
                (delivering [quote 1700053200000 1900.00 1900.30;
                             quote 1700053200001 1900.10 1900.35] 1700053200100)
                (delivering [quote 1700053200000 1900.00 1900.30;
                             quote 1700053200001 1900.10 1900.35] 1700053200350)
                [quote 1700053200000 1900.00 1900.30;
                 quote 1700053200001 1900.10 1900.35]) as H.
  cbv zeta in H.
  destruct H as (_ & _ & H3 & H4 & H5 & _ & _ & H8);
    [discriminate | reflexivity | reflexivity |].
  repeat split; assumption.
Defined.

Lemma cycle_monotone (w : world) (i : cycle_input) :
  (forces_reset w i = true -> last_time_msc w <= clock_msc i - 1000) ->
  last_time_msc w <= last_time_msc (cycle w i).
Proof.
  intros Hfwd. unfold forces_reset in Hfwd.
  destruct (cycle_cases w i) as [Hf | [[Hf Hq] | (t & Hf & Hyes)]].
  - rewrite Hf in Hfwd. destruct (cycle_failed w i Hf) as (_ & Hwm & _).
    rewrite Hwm. destruct (MAX_FAILS <=? fail_count w + 1); [auto | lia].
  - destruct (cycle_skipped w i Hf Hq) as (_ & Hwm & _). lia.
  - destruct (cycle_ingested w i t Hf Hyes) as (_ & Hwm & _).
    apply (ingests_iff w i t Hf) in Hyes. lia.
Qed.

(** What one iteration adds to the tick log lies below its new watermark. *)
Lemma cycle_consumes (w : world) (i : cycle_input) :
  exists consumed,
    csv_rows (tick_csv (cycle w i)) = (csv_rows (tick_csv w) ++ consumed)%list
    /\ Forall (fun e => time_msc (tick e) < last_time_msc (cycle w i)) consumed.
Proof.
  destruct (cycle_cases w i) as [Hf | [[Hf Hq] | (t & Hf & Hyes)]].
  - destruct (cycle_failed w i Hf) as (_ & _ & _ & _ & _ & Htk & _).
    exists []. rewrite Htk, app_nil_r. split; [reflexivity | constructor].
  - destruct (cycle_skipped w i Hf Hq) as (_ & _ & _ & _ & Htk & _).
    exists []. rewrite Htk, app_nil_r. split; [reflexivity | constructor].
  - destruct (cycle_ingested w i t Hf Hyes) as (_ & Hwm & _ & _ & Htk & _).
    exists (map enrich t). rewrite Htk, Hwm. split; [reflexivity |].
    apply enriched_times. lia.
Qed.

Lemma resets_forward_app (xs ys : list cycle_input) :
  forall w, resets_forward w (xs ++ ys) ->
            resets_forward w xs /\ resets_forward (run w xs) ys.
Proof.
  induction xs as [|i rest IH]; intros w H; [split; [exact I | exact H] |].
  destruct H as [Hi Hrest]. destruct (IH _ Hrest) as [Ha Hb].
  split; [split; assumption | exact Hb].
Qed.

Lemma run_monotone (inputs : list cycle_input) :
  forall w, resets_forward w inputs ->
            last_time_msc w <= last_time_msc (run w inputs).
Proof.
  induction inputs as [|i rest IH]; intros w H; [simpl; lia |].
  destruct H as [Hi Hrest].
  change (run w (i :: rest)) with (run (cycle w i) rest).
  pose proof (cycle_monotone w i Hi). pose proof (IH _ Hrest). lia.
Qed.

Lemma run_consumes (inputs : list cycle_input) :
  forall w, resets_forward w inputs ->
    exists consumed,
      csv_rows (tick_csv (run w inputs)) = (csv_rows (tick_csv w) ++ consumed)%list
      /\ Forall (fun e => time_msc (tick e) < last_time_msc (run w inputs)) consumed.
Proof.
  induction inputs as [|i rest IH]; intros w H.
  - exists []. simpl. rewrite app_nil_r. split; [reflexivity | constructor].
  - destruct H as [Hi Hrest].
    change (run w (i :: rest)) with (run (cycle w i) rest).
    destruct (cycle_consumes w i) as (c1 & Hrows1 & Hlow1).
    destruct (IH _ Hrest) as (c2 & Hrows2 & Hlow2).
    pose proof (run_monotone rest _ Hrest) as Hmono.
    exists (c1 ++ c2)%list. split.
    + rewrite Hrows2, Hrows1. now rewrite app_assoc.
    + apply Forall_app. split; [| exact Hlow2].
      eapply Forall_impl; [| exact Hlow1]. simpl. intros e He. lia.
Qed.

(** C1 (as the code has it). An iteration whose batch is non-empty with a
    maximum timestamp above the watermark appends the batch and sets the
    watermark to that maximum plus 1 ms.  Consequently, along any sequence of
    iterations in which every forced reset happens at a clock reading whose
    target, now - 1000 ms, is not behind the watermark of that moment, the
    watermark never decreases and stays strictly above the timestamp of every
    tick appended so far. *)
Theorem watermark_advances (w : world) (earlier later : list cycle_input) :
  resets_forward w (earlier ++ later) ->
  (forall w0 i ticks_raw,
      fetched i = FetchTicks ticks_raw -> ticks_raw <> [] ->
      last_time_msc w0 < time_msc_max ticks_raw ->
      last_time_msc (cycle w0 i) = time_msc_max ticks_raw + 1
      /\ csv_rows (tick_csv (cycle w0 i))
         = (csv_rows (tick_csv w0) ++ map enrich ticks_raw)%list)
  /\ last_time_msc (run w earlier) <= last_time_msc (run w (earlier ++ later))
  /\ (exists consumed,
        csv_rows (tick_csv (run w (earlier ++ later)))
        = (csv_rows (tick_csv w) ++ consumed)%list
        /\ Forall (fun e => time_msc (tick e)
                            < last_time_msc (run w (earlier ++ later))) consumed).
Proof.
  intros Hfwd. split; [| split].
  - intros w0 i ticks_raw Hf Hne Hnew.
    assert (Hing : ingests w0 i = true)
      by (apply (ingests_iff w0 i ticks_raw Hf); now split).
    destruct (cycle_ingested w0 i ticks_raw Hf Hing) as (_ & Hwm & _ & _ & Htk & _).
    split; [exact Hwm | now rewrite Htk].
  - rewrite run_app. apply run_monotone.
    now apply resets_forward_app.
  - now apply run_consumes.
Qed.

(** One batch, then five failures with the clock well past the watermark. *)
Lemma watermark_advances_witness :
  let w := startup 1700000000000 None Absent None in
  let earlier := [delivering [quote 1700000000500 1900.00 1900.30] 1700000000600] in
  let later := [failing 1700000001500; failing 1700000002000; failing 1700000002500;
                failing 1700000003000; failing 1700000003500] in
  last_time_msc (run w earlier) = 1700000000501
  /\ last_time_msc (run w (earlier ++ later)) = 1700000002500
  /\ last_time_msc (run w earlier) <= last_time_msc (run w (earlier ++ later)).
Proof.
  split; [reflexivity |]. split; [reflexivity |].
  refine (proj1 (proj2 (watermark_advances
                          (startup 1700000000000 None Absent None)
                          [delivering [quote 1700000000500 1900.00 1900.30] 1700000000600]
                          [failing 1700000001500; failing 1700000002000;
                           failing 1700000002500; failing 1700000003000;
                           failing 1700000003500] _))).
  vm_compute. repeat split; intros; discriminate.
Defined.

(** Against C1 as worded: a tick stamped by a trade server whose clock runs
    two hours ahead of the logger's is ingested, then five fetches fail; the
    forced reset puts the watermark at the logger's now - 1000 ms, below both
    its previous value and the timestamp of the tick already in the log. *)
Lemma clock_behind_lowers_watermark :
  let w := startup 1700000000000 None Absent None in
  let w1 := cycle w (delivering [quote 1700007200500 1900.00 1900.30] 1700000000600) in
  let w2 := run w1 [failing 1700000001500; failing 1700000002000;
                    failing 1700000002500; failing 1700000003000;
                    failing 1700000003500] in
  last_time_msc w1 = 1700007200501
  /\ last_time_msc w2 = 1700000002500
  /\ last_time_msc w2 < last_time_msc w1
  /\ map (fun e => time_msc (tick e)) (csv_rows (tick_csv w2)) = [1700007200500]
  /\ last_time_msc w2 < 1700007200500.
Proof. repeat split. Qed.

(* ------------------------------------------------------------------ *)
(** ** Tick enrichment *)




(* ================================================================== *)
(** * Further properties of the code *)

(* ------------------------------------------------------------------ *)
(** ** Saving and loading the watermark *)

(** X1. A state file that [save_state] has written in full always loads
    without error.  The loaded watermark is the saved one when
    0 < saved <= now, and now - 2000 otherwise (saved in the future of the
    loading clock, or not positive); either way it does not exceed now.  A
    failed write is absorbed and logged with one line.  When [open] fails the
    file is left as it was.  When the failure comes after [open], which has
    emptied the file, the previous content is lost: what is left is not JSON
    and [load_state] reads it as now - 2000 ms, unless the whole text had
    reached the file, which then holds the new record.  The watermark in
    memory is the same whatever the outcome. *)
Theorem state_round_trip (w : world) (saved_at : datetime) (now : Z) :
  (exists loaded,
      load_state (state_json (save_state Written saved_at w)) now = Ok (JInt loaded)
      /\ loaded <= now
      /\ (0 < last_time_msc w <= now -> loaded = last_time_msc w)
      /\ (last_time_msc w <= 0 \/ now < last_time_msc w -> loaded = now - 2000))
  /\ trace (save_state Written saved_at w) = trace w
  /\ state_json (save_state OpenFailed saved_at w) = state_json w
  /\ trace (save_state OpenFailed saved_at w) = (trace w ++ [LogStateSaveFailed])%list
  /\ state_json (save_state DumpFailed saved_at w) = Damaged JSONDecodeError
  /\ load_state (state_json (save_state DumpFailed saved_at w)) now
     = Ok (JInt (now - 2000))
  /\ trace (save_state DumpFailed saved_at w) = (trace w ++ [LogStateSaveFailed])%list
  /\ state_json (save_state CloseFailed saved_at w)
     = state_json (save_state Written saved_at w)
  /\ trace (save_state CloseFailed saved_at w) = (trace w ++ [LogStateSaveFailed])%list
  /\ (forall outcome,
        last_time_msc (save_state outcome saved_at w) = last_time_msc w).
Proof.
  split;
    [| split; [reflexivity |]; split; [reflexivity |]; split; [reflexivity |];
       split; [reflexivity |]; split; [reflexivity |]; split; [reflexivity |];
       split; [reflexivity |]; split; [reflexivity |];
       intros outcome; apply save_state_frame].
  destruct (save_state_frame Written saved_at w) as (_ & _ & _ & _ & _ & _ & Hfile).
  rewrite Hfile. unfold state_record.
  rewrite (load_state_of_int _ (last_time_msc w) now); [| reflexivity].
  eexists. split; [reflexivity |].
  destruct (last_time_msc w <=? 0) eqn:E1; cbn [orb].
  - apply Z.leb_le in E1. repeat split; intros; lia.
  - apply Z.leb_gt in E1. destruct (now <? last_time_msc w) eqn:E2.
    + apply Z.ltb_lt in E2. repeat split; intros; lia.
    + apply Z.ltb_ge in E2. repeat split; intros; lia.
Qed.

Lemma state_round_trip_witness :
  let w := startup 1700000000000 None Absent None in
  load_state (state_json (save_state Written (msc_to_dt 1700000000100) w))
             1700000005000
  = Ok (JInt 1700000000000)
  /\ load_state (state_json (save_state Written (msc_to_dt 1700000000100) w))
                1699999999000
     = Ok (JInt 1699999997000)
  /\ load_state (state_json (save_state DumpFailed (msc_to_dt 1700000000100) w))
                1700000005000
     = Ok (JInt 1700000003000).
Proof.
  cbv zeta. split; [| split;
    [| exact (proj1 (proj2 (proj2 (proj2 (proj2 (proj2
         (state_round_trip (startup 1700000000000 None Absent None)
            (msc_to_dt 1700000000100) 1700000005000)))))))]].
  - destruct (proj1 (state_round_trip
                       (startup 1700000000000 None Absent None)
                       (msc_to_dt 1700000000100) 1700000005000))
      as (loaded & Hload & _ & Hsame & _).
    rewrite Hload, Hsame; [reflexivity | simpl; lia].
  - destruct (proj1 (state_round_trip
                       (startup 1700000000000 None Absent None)
                       (msc_to_dt 1700000000100) 1699999999000))
      as (loaded & Hload & _ & _ & Hclamp).
    rewrite Hload, Hclamp; [reflexivity | right; simpl; lia].
Defined.

(** A quiet iteration that forces no reset keeps the watermark. *)
Lemma steady_cycle_watermark (w : world) (i : cycle_input) :
  ingests w i = false -> forces_reset w i = false ->
  last_time_msc (cycle w i) = last_time_msc w.
Proof.
  intros Hq Hr. unfold forces_reset in Hr.
  destruct (cycle_cases w i) as [Hf | [[Hf _] | (t & _ & Hyes)]].
  - rewrite Hf in Hr. destruct (cycle_failed w i Hf) as (_ & Hwm & _).
    now rewrite Hr in Hwm.
  - now destruct (cycle_skipped w i Hf Hq) as (_ & Hwm & _).
  - congruence.
Qed.

Lemma steady_run_watermark (inputs : list cycle_input) :
  forall w, no_ingest w inputs -> no_forced_reset w inputs ->
            last_time_msc (run w inputs) = last_time_msc w.
Proof.
  induction inputs as [|i rest IH]; intros w Hq Hr; [reflexivity |].
  destruct Hq as [Hq1 Hq2]. destruct Hr as [Hr1 Hr2].
  change (run w (i :: rest)) with (run (cycle w i) rest).
  rewrite (IH _ Hq2 Hr2). now apply steady_cycle_watermark.
Qed.

(** X2. Resuming where the loop left off.  After an iteration that ingests
    a batch and writes the state file, followed by any iterations that ingest
    nothing, the file holds that batch's watermark (maximum + 1 ms); a restart
    whose clock is not behind it loads exactly that value; and if none of the
    later iterations forced a reset, it is also the watermark the process had
    in memory when it stopped. *)
Theorem restart_resumes
    (w : world) (before : list cycle_input) (i : cycle_input)
    (ticks_raw : list raw_tick) (quiet : list cycle_input) :
  fetched i = FetchTicks ticks_raw ->
  ingests (run w before) i = true ->
  state_writable i = true ->
  no_ingest (cycle (run w before) i) quiet ->
  let final := run w (before ++ i :: quiet) in
  let mark := time_msc_max ticks_raw + 1 in
  state_json final = Stored (state_record mark (clock_utc i))
  /\ (forall now, 0 < mark <= now ->
                  load_state (state_json final) now = Ok (JInt mark))
  /\ (no_forced_reset (cycle (run w before) i) quiet ->
      last_time_msc final = mark).
Proof.
  intros Hf Hing Hwr Hquiet final mark.
  assert (Hfinal : final = run (cycle (run w before) i) quiet).
  { unfold final. rewrite run_app. reflexivity. }
  destruct (cycle_ingested _ i ticks_raw Hf Hing) as (_ & Hwm & _ & _ & _ & Hst).
  rewrite (state_writable_written i Hwr) in Hst.
  destruct (quiet_run_files quiet _ Hquiet) as [Hdisk _].
  assert (Hfile : state_json final = Stored (state_record mark (clock_utc i))).
  { rewrite Hfinal, Hdisk. exact Hst. }
  split; [exact Hfile |]. split.
  - intros now Hvalid. rewrite Hfile. now apply load_saved_state.
  - intros Hsteady. rewrite Hfinal.
    rewrite (steady_run_watermark quiet _ Hquiet Hsteady). exact Hwm.
Qed.

Lemma restart_resumes_witness :
  let w := startup 1700053000000 None Absent None in
  let batch := [quote 1700053200000 1900.00 1900.30] in
  let final := run w ([failing 1700053100000]
                        ++ delivering batch 1700053200100
                        :: [delivering batch 1700053200350; failing 1700053201000]) in
  load_state (state_json final) 1700053300000 = Ok (JInt 1700053200001)
  /\ last_time_msc final = 1700053200001.
Proof.
  pose proof (restart_resumes
                (startup 1700053000000 None Absent None)
                [failing 1700053100000]
                (delivering [quote 1700053200000 1900.00 1900.30] 1700053200100)
                [quote 1700053200000 1900.00 1900.30]
                [delivering [quote 1700053200000 1900.00 1900.30] 1700053200350;
                 failing 1700053201000]
                eq_refl eq_refl eq_refl) as H.
  cbv zeta in H.
  destruct H as (_ & Hload & Hmem).
  - simpl. repeat split; reflexivity.
  - split.
    + apply Hload. unfold time_msc_max. simpl. lia.
    + apply Hmem. simpl. repeat split; reflexivity.
Defined.

(* ------------------------------------------------------------------ *)
(** ** Invariants of the loop *)

Lemma cycle_fail_count_bounded (w : world) (i : cycle_input) :
  0 <= fail_count w < MAX_FAILS -> 0 <= fail_count (cycle w i) < MAX_FAILS.
Proof.
  intros Hb. unfold MAX_FAILS in *.
  destruct (cycle_cases w i) as [Hf | [[Hf Hq] | (t & Hf & Hyes)]].
  - destruct (cycle_failed w i Hf) as (Hfc & _). rewrite Hfc.
    unfold MAX_FAILS. destruct (5 <=? fail_count w + 1) eqn:E; [lia |].
    apply Z.leb_gt in E. lia.
  - destruct (cycle_skipped w i Hf Hq) as (Hfc & _). lia.
  - destruct (cycle_ingested w i t Hf Hyes) as (Hfc & _). lia.
Qed.

Lemma run_fail_count_bounded (inputs : list cycle_input) :
  forall w, 0 <= fail_count w < MAX_FAILS ->
            0 <= fail_count (run w inputs) < MAX_FAILS.
Proof.
  induction inputs as [|i rest IH]; intros w Hb; [exact Hb |].
  change (run w (i :: rest)) with (run (cycle w i) rest).
  apply IH. now apply cycle_fail_count_bounded.
Qed.

(** X3. From start-up on, whatever the source and the clock do, the
    consecutive-failure counter stays within 0 <= fail_count < MAX_FAILS:
    the value MAX_FAILS itself is never left standing between iterations. *)
Theorem fail_count_in_range
    (watermark : Z) (ticks : csv enriched_tick) (state : state_file)
    (sessions : csv session_event) (inputs : list cycle_input) :
  0 <= fail_count (run (startup watermark ticks state sessions) inputs) < MAX_FAILS.
Proof. apply run_fail_count_bounded. unfold MAX_FAILS. simpl. lia. Qed.

Lemma cycle_accounting (w : world) (i : cycle_input) :
  exists appended,
    csv_rows (tick_csv (cycle w i)) = (csv_rows (tick_csv w) ++ appended)%list
    /\ total_ticks (cycle w i) = total_ticks w + Z.of_nat (List.length appended).
Proof.
  destruct (cycle_cases w i) as [Hf | [[Hf Hq] | (t & Hf & Hyes)]].
  - destruct (cycle_failed w i Hf) as (_ & _ & _ & Htot & _ & Htk & _).
    exists []. rewrite Htk, Htot, app_nil_r. simpl. split; [reflexivity | lia].
  - destruct (cycle_skipped w i Hf Hq) as (_ & _ & Htot & _ & Htk & _).
    exists []. rewrite Htk, Htot, app_nil_r. simpl. split; [reflexivity | lia].
  - destruct (cycle_ingested w i t Hf Hyes) as (_ & _ & Htot & _ & Htk & _).
    exists (map enrich t). rewrite Htk, Htot, length_map.
    split; reflexivity.
Qed.

(** X4. The tick log is append-only and [total_ticks] counts it: over any
    run of iterations, the log afterwards is the log before followed by the
    rows appended, nothing earlier is removed or changed, and [total_ticks]
    has grown by exactly the number of rows appended. *)
Theorem tick_log_accounting (inputs : list cycle_input) (w : world) :
  exists appended,
    csv_rows (tick_csv (run w inputs)) = (csv_rows (tick_csv w) ++ appended)%list
    /\ total_ticks (run w inputs) = total_ticks w + Z.of_nat (List.length appended).
Proof.
  revert w. induction inputs as [|i rest IH]; intros w.
  - exists []. simpl. rewrite app_nil_r. split; [reflexivity | lia].
  - change (run w (i :: rest)) with (run (cycle w i) rest).
    destruct (cycle_accounting w i) as (a1 & Hr1 & Ht1).
    destruct (IH (cycle w i)) as (a2 & Hr2 & Ht2).
    exists (a1 ++ a2)%list. rewrite Hr2, Hr1, Ht2, Ht1, length_app, app_assoc.
    split; [reflexivity | lia].
Qed.

(* ------------------------------------------------------------------ *)
(** ** The session log *)

Lemma chained_app (held : option session) (xs ys : list session_event) :
  chained held xs -> chained (held_by held xs) ys -> chained held (xs ++ ys).
Proof.
  revert held. induction xs as [|r rest IH]; intros held Hx Hy; [exact Hy |].
  destruct Hx as (Hp & Hd & Hrest). simpl. repeat split; try assumption.
  apply IH; assumption.
Qed.

Lemma held_by_app (held : option session) (xs ys : list session_event) :
  held_by held (xs ++ ys) = held_by (held_by held xs) ys.
Proof. apply fold_left_app. Qed.

(** One check, as rows: none, or one that continues the chain. *)
Lemma check_session_change_chain (dt : datetime) (w : world) :
  exists rows,
    csv_rows (session_csv (check_session_change dt w))
    = (csv_rows (session_csv w) ++ rows)%list
    /\ chained (current_session w) rows
    /\ current_session (check_session_change dt w) = held_by (current_session w) rows.
Proof.
  destruct (check_session_change_step dt w) as (Hsame & Hdiff & Hheld).
  destruct (option_session_eqb (current_session w) (Some (get_session dt))) eqn:E.
  - apply option_session_eqb_eq in E. exists []. rewrite (Hsame E).
    rewrite app_nil_r. repeat split.
  - assert (Hne : current_session w <> Some (get_session dt)).
    { intros Heq. apply option_session_eqb_eq in Heq. congruence. }
    eexists. split; [exact (Hdiff Hne) |]. split.
    + simpl. repeat split. exact Hne.
    + rewrite Hheld. reflexivity.
Qed.

(** The session check reads and writes the held label and the session log,
    and nothing else decides what it does to them. *)
Lemma check_session_change_local (dt : datetime) (w1 w2 : world) :
  current_session w1 = current_session w2 -> session_csv w1 = session_csv w2 ->
  current_session (check_session_change dt w1)
  = current_session (check_session_change dt w2)
  /\ session_csv (check_session_change dt w1)
     = session_csv (check_session_change dt w2).
Proof.
  intros Hc Hs. unfold check_session_change.
  generalize (get_session dt) (isoformat dt) (day_name dt). intros sess iso day.
  rewrite Hc, Hs.
  destruct (option_session_eqb (Some sess) (current_session w2));
    split; assumption || reflexivity.
Qed.

(** What an iteration does to the session log: nothing, or one check. *)
Lemma cycle_session (w : world) (i : cycle_input) :
  (current_session (cycle w i) = current_session w
   /\ session_csv (cycle w i) = session_csv w)
  \/ (exists dt,
         current_session (cycle w i) = current_session (check_session_change dt w)
         /\ session_csv (cycle w i) = session_csv (check_session_change dt w)).
Proof.
  destruct (cycle_cases w i) as [Hf | [[Hf Hq] | (t & Hf & Hyes)]].
  - left. destruct (cycle_failed w i Hf) as (_ & _ & _ & _ & Hc & _ & _ & Hs). auto.
  - left. destruct (cycle_skipped w i Hf Hq) as (_ & _ & _ & Hc & _ & _ & Hs). auto.
  - right. exists (msc_to_dt (time_msc_max t)).
    unfold ingests in Hyes. rewrite Hf in Hyes.
    apply andb_true_iff in Hyes. destruct Hyes as [Hn Hnew].
    unfold cycle. rewrite Hf. rewrite process_batch_array.
    cbn [last_time_msc set_fail_count]. rewrite Hn, Hnew.
    unfold end_of_iteration, ingest, emit. cbn [current_session session_csv].
    match goal with
    | |- context [save_state ?o ?n ?w0] =>
        destruct (save_state_frame o n w0) as (_ & _ & _ & Hc & _ & Hs & _)
    end.
    apply check_session_change_local; assumption.
Qed.

Lemma cycle_session_chain (w : world) (i : cycle_input) :
  exists rows,
    csv_rows (session_csv (cycle w i)) = (csv_rows (session_csv w) ++ rows)%list
    /\ chained (current_session w) rows
    /\ current_session (cycle w i) = held_by (current_session w) rows.
Proof.
  destruct (cycle_session w i) as [[Hc Hs] | (dt & Hc & Hs)].
  - exists []. rewrite Hs, Hc, app_nil_r. repeat split.
  - destruct (check_session_change_chain dt w) as (rows & Hr & Hch & Hh).
    exists rows. rewrite Hs, Hc. auto.
Qed.

(** X5. The session log never repeats itself.  Over any run of loop
    iterations, and over any sequence of direct calls of the check, the rows
    appended form a chain: the first carries the label held at the beginning
    as [prev] (None right after start-up), every row carries the session of
    the row before it as [prev], no row has the same session as its [prev],
    and the label held at the end is the session of the last row. *)
Theorem session_log_chained (w : world) :
  (forall inputs,
      exists rows,
        csv_rows (session_csv (run w inputs)) = (csv_rows (session_csv w) ++ rows)%list
        /\ chained (current_session w) rows
        /\ current_session (run w inputs) = held_by (current_session w) rows)
  /\ (forall instants,
        exists rows,
          csv_rows (session_csv (observe w instants))
          = (csv_rows (session_csv w) ++ rows)%list
          /\ chained (current_session w) rows
          /\ current_session (observe w instants) = held_by (current_session w) rows).
Proof.
  split.
  - intros inputs. revert w. induction inputs as [|i rest IH]; intros w.
    + exists []. simpl. rewrite app_nil_r. repeat split.
    + change (run w (i :: rest)) with (run (cycle w i) rest).
      destruct (cycle_session_chain w i) as (r1 & Hr1 & Hc1 & Hh1).
      destruct (IH (cycle w i)) as (r2 & Hr2 & Hc2 & Hh2).
      exists (r1 ++ r2)%list. rewrite Hr2, Hr1, Hh2, Hh1, held_by_app, app_assoc.
      split; [reflexivity |]. split; [| reflexivity].
      apply chained_app; [exact Hc1 | now rewrite <- Hh1].
  - intros instants. revert w. induction instants as [|dt rest IH]; intros w.
    + exists []. simpl. rewrite app_nil_r. repeat split.
    + change (observe w (dt :: rest)) with (observe (check_session_change dt w) rest).
      destruct (check_session_change_chain dt w) as (r1 & Hr1 & Hc1 & Hh1).
      destruct (IH (check_session_change dt w)) as (r2 & Hr2 & Hc2 & Hh2).
      exists (r1 ++ r2)%list. rewrite Hr2, Hr1, Hh2, Hh1, held_by_app, app_assoc.
      split; [reflexivity |]. split; [| reflexivity].
      apply chained_app; [exact Hc1 | now rewrite <- Hh1].
Qed.

(* ------------------------------------------------------------------ *)
(** ** The session windows *)

Lemma dt_hour_next_day (dt : datetime) (days : Z) :
  dt_hour (dt + days * 86400000000) = dt_hour dt.
Proof.
  unfold dt_hour.
  replace (dt + days * 86400000000) with (dt + (days * 24) * 3600000000) by lia.
  rewrite Z.div_add by lia. apply Z.mod_add. lia.
Qed.

(** X6. The windows [get_session] really has, by whole UTC hours:
    LondonNY_Overlap for hours 12..15, London for 7..11 only, NewYork for
    16..20 only, Asia for 21..23 and 0..6 (the minute never matters, and the
    bounds 16 of the London test and 12 of the NewYork test are never the ones
    that decide); and the label repeats every 24 hours. *)
Theorem session_windows (dt : datetime) :
  (get_session dt = LondonNY_Overlap <-> 12 <= dt_hour dt < 16)
  /\ (get_session dt = London <-> 7 <= dt_hour dt < 12)
  /\ (get_session dt = NewYork <-> 16 <= dt_hour dt < 21)
  /\ (get_session dt = Asia <-> dt_hour dt < 7 \/ 21 <= dt_hour dt)
  /\ (forall days, get_session (dt + days * 86400000000) = get_session dt).
Proof.
  assert (Hwin : forall h s,
             classified_by_hour h = s ->
             match s with
             | LondonNY_Overlap => 12 <= h < 16
             | London => 7 <= h < 12
             | NewYork => 16 <= h < 21
             | Asia => h < 7 \/ 21 <= h
             end).
  { intros h s <-. unfold classified_by_hour.
    destruct (12 <=? h) eqn:E1; destruct (h <? 16) eqn:E2;
      destruct (7 <=? h) eqn:E3; destruct (h <? 12) eqn:E4;
      destruct (16 <=? h) eqn:E5; destruct (h <? 21) eqn:E6; cbn;
      repeat match goal with
        | H : (_ <=? _) = true |- _ => apply Z.leb_le in H
        | H : (_ <=? _) = false |- _ => apply Z.leb_gt in H
        | H : (_ <? _) = true |- _ => apply Z.ltb_lt in H
        | H : (_ <? _) = false |- _ => apply Z.ltb_ge in H
        end; lia. }
  assert (Hday : forall days,
             get_session (dt + days * 86400000000) = get_session dt).
  { intros days. rewrite (get_session_by_hour (dt + days * 86400000000)).
    now rewrite dt_hour_next_day, <- get_session_by_hour. }
  rewrite (get_session_by_hour dt) in *.
  pose proof (Hwin (dt_hour dt) _ eq_refl) as Hhere.
  destruct (classified_by_hour (dt_hour dt));
    (split; [| split; [| split; [| split; [| exact Hday]]]]);
    split; intros H; try discriminate; try reflexivity; lia.
Qed.

(* ------------------------------------------------------------------ *)
(** ** The enriched rows *)

Lemma dt_hour_of_msc (time_msc : Z) :
  dt_hour (msc_to_dt time_msc) = (time_msc / 3600000) mod 24.
Proof.
  unfold dt_hour, msc_to_dt.
  replace 3600000000 with (3600000 * 1000) by reflexivity.
  now rewrite Z.div_mul_cancel_r by lia.
Qed.

(** X7. The rows [process_ticks] produces stay aligned with their ticks:
    read across, the source columns are the input ticks, unchanged and in
    order, and in every row the derived columns belong to that row's own
    tick: hour_utc is its UTC hour (0..23, from time_msc), the session tag is
    the one of that hour, time_dt is the ISO rendering of its time_msc and
    flag_desc decodes its flags. *)
Theorem enriched_rows_aligned (ticks_raw : list raw_tick) :
  map tick (frame_rows (process_ticks ticks_raw)) = ticks_raw
  /\ Forall (fun e =>
               hour_utc e = (time_msc (tick e) / 3600000) mod 24
               /\ 0 <= hour_utc e < 24
               /\ session_tag e = classified_by_hour (hour_utc e)
               /\ time_dt e = isoformat (msc_to_dt (time_msc (tick e)))
               /\ day_of_week e = day_name (msc_to_dt (time_msc (tick e)))
               /\ flag_desc e = flag_description (flags (tick e)))
            (frame_rows (process_ticks ticks_raw)).
Proof.
  rewrite process_ticks_rows. split.
  - rewrite map_map. cbn [tick enrich]. apply map_id.
  - apply Forall_forall. intros e He.
    apply in_map_iff in He. destruct He as (t & <- & _).
    cbn [enrich hour_utc session_tag time_dt day_of_week flag_desc tick].
    split; [apply dt_hour_of_msc |].
    split; [apply dt_hour_range |].
    split; [apply get_session_by_hour |].
    repeat split.
Qed.

(* ------------------------------------------------------------------ *)
(** ** Flag decoding *)

Lemma land_low_bits (flags mask : Z) :
  Z.land 127 mask = mask ->
  Z.land (flags mod 128) mask = Z.land flags mask.
Proof.
  intros Hm. change 128 with (2 ^ 7).
  rewrite <- Z.land_ones by lia. change (Z.ones 7) with 127.
  now rewrite <- Z.land_assoc, Hm.
Qed.

Lemma flag_description_low_bits (flags : Z) :
  flag_description (flags mod 128) = flag_description flags.
Proof.
  unfold flag_description.
  rewrite !land_low_bits by reflexivity. reflexivity.
Qed.

Lemma descriptions_tell_bits_everywhere :
  forallb (fun x => forallb (description_tells_bits x) (Zrange 128)) (Zrange 128)
  = true.
Proof. vm_compute. reflexivity. Qed.

Lemma description_tells_bits_at (x y : Z) :
  0 <= x < 128 -> 0 <= y < 128 -> description_tells_bits x y = true.
Proof.
  intros Hx Hy.
  pose proof descriptions_tell_bits_everywhere as Hall.
  rewrite forallb_forall in Hall.
  specialize (Hall x (Zrange_In 128 x Hx)).
  rewrite forallb_forall in Hall.
  exact (Hall y (Zrange_In 128 y Hy)).
Qed.

(** X8. [flag_description] reads exactly the six bits 0x02..0x40 of the
    flag word and loses none of them: two flag words get the same description
    if and only if they agree on these six bits (every other bit, bit 0
    included, is ignored), and the description is "TICK" if and only if none
    of the six is set. *)
Theorem flag_description_bits (flags other : Z) :
  (flag_description flags = flag_description other
   <-> Z.land flags FLAG_BITS = Z.land other FLAG_BITS)
  /\ (flag_description flags = "TICK" <-> Z.land flags FLAG_BITS = 0).
Proof.
  assert (Hpair : forall f g,
             flag_description f = flag_description g
             <-> Z.land f FLAG_BITS = Z.land g FLAG_BITS).
  { intros f g.
    pose proof (description_tells_bits_at (f mod 128) (g mod 128)
                  (Z.mod_pos_bound f 128 eq_refl)
                  (Z.mod_pos_bound g 128 eq_refl)) as Hb.
    unfold description_tells_bits in Hb. apply Bool.eqb_prop in Hb.
    rewrite !flag_description_low_bits in Hb.
    unfold FLAG_BITS in *. rewrite !land_low_bits in Hb by reflexivity.
    split.
    - intros E. apply Z.eqb_eq. rewrite <- Hb. now apply String.eqb_eq.
    - intros E. apply String.eqb_eq. rewrite Hb. now apply Z.eqb_eq. }
  split; [apply Hpair |].
  change "TICK" with (flag_description 0).
  rewrite (Hpair flags 0). now rewrite Z.land_0_l.
Qed.

(* ------------------------------------------------------------------ *)
(** ** Bar synchronisation *)

Lemma timeframe_eqb_eq (a b : timeframe) : timeframe_eqb a b = true <-> a = b.
Proof. destruct a, b; simpl; split; congruence. Qed.

Lemma update_same {A} (f : timeframe -> A) (tf : timeframe) (v : A) :
  update f tf v tf = v.
Proof.
  unfold update. replace (timeframe_eqb tf tf) with true; [reflexivity |].
  symmetry. now apply timeframe_eqb_eq.
Qed.

Lemma update_other {A} (f : timeframe -> A) (tf other : timeframe) (v : A) :
  other <> tf -> update f tf v other = f other.
Proof.
  intros Hne. unfold update. destruct (timeframe_eqb other tf) eqn:E; [| reflexivity].
  apply timeframe_eqb_eq in E. congruence.
Qed.

Lemma time_max_bounds (rates : list raw_bar) (b : raw_bar) :
  In b rates -> time b <= time_max rates.
Proof.
  destruct rates as [|b0 rest]; [contradiction |].
  intros [-> | Hin]; unfold time_max.
  - apply fold_max_ge_init.
  - apply fold_max_ge_each. now apply in_map.
Qed.

Lemma length_zero_nil {A} (l : list A) : Nat.eqb (List.length l) 0 = true -> l = [].
Proof. destruct l; [reflexivity | discriminate]. Qed.

(** One sync of [tf], seen at [tf]: the rows written are the answer's bars
    later than the cursor, in the answer's order; the cursor ends at least as
    high as every bar of the answer, and moves only when something was
    written. *)
Lemma sync_ohlcv_here (tf : timeframe) (answer : rates_outcome) (s : bar_store) :
  exists appended,
    bar_rows (sync_ohlcv tf answer s) tf = (bar_rows s tf ++ appended)%list
    /\ appended
       = match answer with
         | Rates rates =>
             filter (fun r => ohlcv_last_bar s tf <? time (bar r))
                    (map bar_to_row rates)
         | _ => []
         end
    /\ Forall (fun r => ohlcv_last_bar s tf < time (bar r)
                        <= ohlcv_last_bar (sync_ohlcv tf answer s) tf) appended
    /\ ohlcv_last_bar s tf <= ohlcv_last_bar (sync_ohlcv tf answer s) tf
    /\ (appended = [] ->
        ohlcv_last_bar (sync_ohlcv tf answer s) tf = ohlcv_last_bar s tf
        /\ ohlcv_csv (sync_ohlcv tf answer s) tf = ohlcv_csv s tf)
    /\ match answer with
       | Rates rates =>
           forall b, In b rates ->
                     time b <= ohlcv_last_bar (sync_ohlcv tf answer s) tf
       | _ => True
       end.
Proof.
  unfold bar_rows, sync_ohlcv.
  destruct answer as [| | rates].
  - exists []. cbn. rewrite app_nil_r.
    split; [reflexivity |]. split; [reflexivity |]. split; [constructor |].
    split; [lia |]. split; [auto | exact I].
  - exists []. cbn. rewrite app_nil_r.
    split; [reflexivity |]. split; [reflexivity |]. split; [constructor |].
    split; [lia |]. split; [auto | exact I].
  - destruct (Nat.eqb (List.length rates) 0) eqn:En.
    + apply length_zero_nil in En. subst rates.
      exists []. cbn. rewrite app_nil_r.
      split; [reflexivity |]. split; [reflexivity |]. split; [constructor |].
      split; [lia |]. split; [auto |]. intros b [].
    + set (new_df := filter (fun r => ohlcv_last_bar s tf <? time (bar r))
                            (map bar_to_row rates)).
      assert (Hnew : Forall (fun r => ohlcv_last_bar s tf < time (bar r)
                                      <= time_max rates) new_df).
      { apply Forall_forall. intros r Hr. apply filter_In in Hr.
        destruct Hr as [Hin Hlt]. apply Z.ltb_lt in Hlt.
        apply in_map_iff in Hin. destruct Hin as (b & <- & Hb).
        pose proof (time_max_bounds rates b Hb). simpl in *. lia. }
      destruct (Nat.eqb (List.length new_df) 0) eqn:Ef.
      * apply length_zero_nil in Ef.
        exists []. cbn. rewrite app_nil_r.
        split; [reflexivity |]. split; [now rewrite <- Ef |].
        split; [constructor |]. split; [lia |]. split; [auto |].
        intros b Hb.
        destruct (ohlcv_last_bar s tf <? time b) eqn:Elt; [| now apply Z.ltb_ge].
        assert (Hin : In (bar_to_row b) new_df).
        { apply filter_In. split; [now apply in_map | exact Elt]. }
        rewrite Ef in Hin. contradiction.
      * exists new_df. cbn [ohlcv_csv ohlcv_last_bar]. rewrite !update_same.
        split; [reflexivity |]. split; [reflexivity |].
        split; [exact Hnew |].
        assert (Hup : ohlcv_last_bar s tf <= time_max rates).
        { destruct new_df as [|r rest]; [discriminate |].
          inversion Hnew; subst. lia. }
        split; [exact Hup |]. split.
        -- intros Hnil. rewrite Hnil in Ef. discriminate.
        -- intros b Hb. now apply time_max_bounds.
Qed.

(** One sync of [tf] leaves every other timeframe's cursor and log alone. *)
Lemma sync_ohlcv_elsewhere (tf other : timeframe) (answer : rates_outcome)
    (s : bar_store) :
  other <> tf ->
  ohlcv_last_bar (sync_ohlcv tf answer s) other = ohlcv_last_bar s other
  /\ ohlcv_csv (sync_ohlcv tf answer s) other = ohlcv_csv s other.
Proof.
  intros Hne. unfold sync_ohlcv.
  destruct answer as [| | rates]; [split; reflexivity | split; reflexivity |].
  destruct (Nat.eqb (List.length rates) 0); [split; reflexivity |].
  match goal with
  | |- context [Nat.eqb (List.length ?l) 0] =>
      destruct (Nat.eqb (List.length l) 0)
  end; [split; reflexivity |].
  cbn [ohlcv_last_bar ohlcv_csv]. now rewrite !update_other.
Qed.

(** What a sync does at [tf] depends on the store only through the cursor
    and the log of [tf]. *)
Lemma sync_ohlcv_local (tf : timeframe) (answer : rates_outcome) (s1 s2 : bar_store) :
  ohlcv_last_bar s1 tf = ohlcv_last_bar s2 tf ->
  ohlcv_csv s1 tf = ohlcv_csv s2 tf ->
  ohlcv_last_bar (sync_ohlcv tf answer s1) tf
  = ohlcv_last_bar (sync_ohlcv tf answer s2) tf
  /\ ohlcv_csv (sync_ohlcv tf answer s1) tf = ohlcv_csv (sync_ohlcv tf answer s2) tf.
Proof.
  intros Hc Hf. unfold sync_ohlcv.
  destruct answer as [| | rates]; [split; assumption | split; assumption |].
  destruct (Nat.eqb (List.length rates) 0); [split; assumption |].
  rewrite Hc.
  match goal with
  | |- context [Nat.eqb (List.length ?l) 0] =>
      destruct (Nat.eqb (List.length l) 0)
  end; [split; assumption |].
  cbn [ohlcv_last_bar ohlcv_csv]. rewrite !update_same, Hf. split; reflexivity.
Qed.

Lemma sync_repeatedly_rows (tf : timeframe) (answers : list rates_outcome) :
  forall s,
    exists appended,
      bar_rows (sync_repeatedly tf answers s) tf = (bar_rows s tf ++ appended)%list
      /\ Forall (fun r => ohlcv_last_bar s tf < time (bar r)
                          <= ohlcv_last_bar (sync_repeatedly tf answers s) tf)
                appended
      /\ ohlcv_last_bar s tf <= ohlcv_last_bar (sync_repeatedly tf answers s) tf.
Proof.
  induction answers as [|a rest IH]; intros s.
  - exists []. simpl. rewrite app_nil_r. split; [reflexivity |].
    split; [constructor | lia].
  - change (sync_repeatedly tf (a :: rest) s)
      with (sync_repeatedly tf rest (sync_ohlcv tf a s)).
    destruct (sync_ohlcv_here tf a s) as (a1 & Hr1 & _ & Hb1 & Hm1 & _).
    destruct (IH (sync_ohlcv tf a s)) as (a2 & Hr2 & Hb2 & Hm2).
    exists (a1 ++ a2)%list. rewrite Hr2, Hr1, app_assoc.
    split; [reflexivity |]. split; [| lia].
    apply Forall_app. split.
    + eapply Forall_impl; [| exact Hb1]. simpl. intros r Hr. lia.
    + eapply Forall_impl; [| exact Hb2]. simpl. intros r Hr. lia.
Qed.

(** X9. Within one run of the process no bar overtakes the cursor: over
    successive syncs of a timeframe, every bar written is later than the
    cursor the syncs started from, and every bar written by a later sync is
    strictly later than every bar written by an earlier one; the cursor never
    moves back. *)
Theorem bars_strictly_newer
    (tf : timeframe) (earlier later : list rates_outcome) (s : bar_store) :
  exists first second,
    bar_rows (sync_repeatedly tf earlier s) tf = (bar_rows s tf ++ first)%list
    /\ bar_rows (sync_repeatedly tf (earlier ++ later) s) tf
       = (bar_rows s tf ++ first ++ second)%list
    /\ (forall r1 r2, In r1 first -> In r2 second -> time (bar r1) < time (bar r2))
    /\ Forall (fun r => ohlcv_last_bar s tf < time (bar r)) (first ++ second)
    /\ ohlcv_last_bar s tf <= ohlcv_last_bar (sync_repeatedly tf earlier s) tf
    /\ ohlcv_last_bar (sync_repeatedly tf earlier s) tf
       <= ohlcv_last_bar (sync_repeatedly tf (earlier ++ later) s) tf.
Proof.
  assert (Happ : sync_repeatedly tf (earlier ++ later) s
                 = sync_repeatedly tf later (sync_repeatedly tf earlier s))
    by apply fold_left_app.
  destruct (sync_repeatedly_rows tf earlier s) as (a1 & Hr1 & Hb1 & Hm1).
  destruct (sync_repeatedly_rows tf later (sync_repeatedly tf earlier s))
    as (a2 & Hr2 & Hb2 & Hm2).
  rewrite <- Happ in Hr2, Hb2, Hm2.
  exists a1, a2. split; [exact Hr1 |].
  split; [now rewrite Hr2, Hr1, app_assoc |].
  rewrite Forall_forall in Hb1, Hb2.
  split; [| split; [| split; assumption]].
  - intros r1 r2 H1 H2. specialize (Hb1 r1 H1). specialize (Hb2 r2 H2). lia.
  - apply Forall_forall. intros r Hr. apply in_app_or in Hr.
    destruct Hr as [Hr | Hr]; [specialize (Hb1 r Hr) | specialize (Hb2 r Hr)]; lia.
Qed.

Lemma filter_none {A} (f : A -> bool) (l : list A) :
  (forall x, In x l -> f x = false) -> filter f l = [].
Proof.
  induction l as [|x rest IH]; intros Hall; [reflexivity |].
  simpl. rewrite (Hall x) by now left. apply IH.
  intros y Hy. apply Hall. now right.
Qed.

Lemma filter_all {A} (f : A -> bool) (l : list A) :
  (forall x, In x l -> f x = true) -> filter f l = l.
Proof.
  induction l as [|x rest IH]; intros Hall; [reflexivity |].
  simpl. rewrite (Hall x) by now left. f_equal. apply IH.
  intros y Hy. apply Hall. now right.
Qed.

(** X10. Syncing the same answer twice writes nothing the second time: after
    a sync, a second sync of the same timeframe that gets the same bars leaves
    every cursor and every bar log exactly as the first left them. *)
Theorem resync_writes_nothing
    (tf : timeframe) (answer : rates_outcome) (s : bar_store) (k : timeframe) :
  ohlcv_last_bar (sync_ohlcv tf answer (sync_ohlcv tf answer s)) k
  = ohlcv_last_bar (sync_ohlcv tf answer s) k
  /\ ohlcv_csv (sync_ohlcv tf answer (sync_ohlcv tf answer s)) k
     = ohlcv_csv (sync_ohlcv tf answer s) k.
Proof.
  destruct (timeframe_eqb k tf) eqn:E.
  - apply timeframe_eqb_eq in E. subst k.
    destruct (sync_ohlcv_here tf answer s) as (_ & _ & _ & _ & _ & _ & Hcover).
    destruct (sync_ohlcv_here tf answer (sync_ohlcv tf answer s))
      as (a2 & _ & Ha2 & _ & _ & Hnil & _).
    apply Hnil. rewrite Ha2. destruct answer as [| | rates]; try reflexivity.
    apply filter_none. intros r Hr.
    apply in_map_iff in Hr. destruct Hr as (b & <- & Hb).
    apply Z.ltb_ge. simpl. now apply Hcover.
  - apply sync_ohlcv_elsewhere. intros Heq.
    apply timeframe_eqb_eq in Heq. congruence.
Qed.

(** X11. The cursors live in memory only.  A process that starts again
    begins with every cursor at 0, so its first sync of a timeframe writes
    every bar of the answer (their times are positive) behind whatever the
    log already holds: bars logged by the previous run are logged a second
    time. *)
Theorem bars_rewritten_after_restart
    (tf : timeframe) (rates : list raw_bar) (files : timeframe -> csv bar_row) :
  (forall b, In b rates -> 0 < time b) ->
  let first_run := sync_ohlcv tf (Rates rates) (ohlcv_start files) in
  let second_run :=
    sync_ohlcv tf (Rates rates) (ohlcv_start (ohlcv_csv first_run)) in
  bar_rows first_run tf = (csv_rows (files tf) ++ map bar_to_row rates)%list
  /\ bar_rows second_run tf
     = (csv_rows (files tf) ++ map bar_to_row rates ++ map bar_to_row rates)%list.
Proof.
  intros Hpos first_run second_run.
  assert (Hall : forall fs,
             bar_rows (sync_ohlcv tf (Rates rates) (ohlcv_start fs)) tf
             = (csv_rows (fs tf) ++ map bar_to_row rates)%list).
  { intros fs.
    destruct (sync_ohlcv_here tf (Rates rates) (ohlcv_start fs))
      as (a & Hr & Ha & _).
    rewrite Hr, Ha. unfold bar_rows. cbn [ohlcv_start ohlcv_csv ohlcv_last_bar].
    f_equal. apply filter_all. intros r Hin.
    apply in_map_iff in Hin. destruct Hin as (b & <- & Hb).
    apply Z.ltb_lt. simpl. now apply Hpos. }
  split; [apply Hall |].
  unfold second_run. rewrite Hall.
  change (csv_rows (ohlcv_csv first_run tf)) with (bar_rows first_run tf).
  unfold first_run. rewrite Hall. now rewrite app_assoc.
Qed.

Lemma bars_rewritten_after_restart_witness :
  let b := {| time := 1700053200; open := 1900.00; high := 1900.35;
              low := 1899.90; close := 1900.10; tick_volume := 42;
              spread := 30; real_volume := Some 0 |} in
  let first_run := sync_ohlcv M1 (Rates [b]) (ohlcv_start (fun _ => None)) in
  let second_run :=
    sync_ohlcv M1 (Rates [b]) (ohlcv_start (ohlcv_csv first_run)) in
  map bar_time_dt (bar_rows second_run M1)
  = ["2023-11-15T13:00:00Z"; "2023-11-15T13:00:00Z"].
Proof.
  pose proof (bars_rewritten_after_restart M1
                [{| time := 1700053200; open := 1900.00; high := 1900.35;
                    low := 1899.90; close := 1900.10; tick_volume := 42;
                    spread := 30; real_volume := Some 0 |}]
                (fun _ => None)) as H.
  cbv zeta in H. destruct H as [_ H2].
  - intros b [<- | []]. simpl. lia.
  - cbv zeta. rewrite H2. reflexivity.
Defined.

Lemma sync_fold_at (answers : timeframe -> rates_outcome) (tf : timeframe)
    (order : list timeframe) :
  NoDup order ->
  forall s,
    let final := fold_left (fun acc k => sync_ohlcv k (answers k) acc) order s in
    (In tf order ->
     ohlcv_last_bar final tf = ohlcv_last_bar (sync_ohlcv tf (answers tf) s) tf
     /\ ohlcv_csv final tf = ohlcv_csv (sync_ohlcv tf (answers tf) s) tf)
    /\ (~ In tf order ->
        ohlcv_last_bar final tf = ohlcv_last_bar s tf
        /\ ohlcv_csv final tf = ohlcv_csv s tf).
Proof.
  intros Hnd. induction Hnd as [|k rest Hk Hnd IH]; intros s final.
  - split; [intros [] | intros _; split; reflexivity].
  - unfold final. cbn [fold_left].
    destruct (IH (sync_ohlcv k (answers k) s)) as [Hin Hout].
    split.
    + intros [-> | Hrest].
      * now apply Hout.
      * assert (Hne : tf <> k) by (intros ->; contradiction).
        destruct (Hin Hrest) as [Hc Hf]. rewrite Hc, Hf.
        destruct (sync_ohlcv_elsewhere k tf (answers k) s Hne) as [Hc1 Hf1].
        now apply sync_ohlcv_local.
    + intros Hnot.
      assert (Hne : tf <> k) by (intros ->; apply Hnot; now left).
      destruct (Hout (fun H => Hnot (or_intror H))) as [Hc Hf].
      rewrite Hc, Hf. now apply sync_ohlcv_elsewhere.
Qed.

Lemma requests_app (xs ys : list ohlcv_event) :
  requests (xs ++ ys) = (requests xs ++ requests ys)%list.
Proof.
  induction xs as [|e rest IH]; [reflexivity |].
  destruct e; simpl; now rewrite IH.
Qed.

Lemma sync_ohlcv_requests (tf : timeframe) (answer : rates_outcome) (s : bar_store) :
  requests (ohlcv_trace (sync_ohlcv tf answer s))
  = (requests (ohlcv_trace s) ++ [(tf, OHLCV_LOOKBACK tf)])%list.
Proof.
  unfold sync_ohlcv.
  destruct answer as [| | rates]; cbn [ohlcv_trace];
    [now rewrite !requests_app, app_nil_r | now rewrite requests_app |].
  destruct (Nat.eqb (List.length rates) 0); cbn [ohlcv_trace];
    [now rewrite requests_app |].
  match goal with
  | |- context [Nat.eqb (List.length ?l) 0] =>
      destruct (Nat.eqb (List.length l) 0)
  end; cbn [ohlcv_trace]; now rewrite requests_app.
Qed.

(** X12. [sync_all_ohlcv] treats the nine timeframes independently: for each
    of them the cursor and the log end exactly as a sync of that timeframe
    alone, on its own answer, would leave them, so an exception or an empty
    answer for one timeframe costs the others nothing; and the source is asked
    once per timeframe, in dictionary order, each time for that timeframe's
    lookback (500 bars, 200 for W1, 100 for MN1). *)
Theorem sync_all_independent
    (answers : timeframe -> rates_outcome) (s : bar_store) (tf : timeframe) :
  ohlcv_last_bar (sync_all_ohlcv answers s) tf
  = ohlcv_last_bar (sync_ohlcv tf (answers tf) s) tf
  /\ ohlcv_csv (sync_all_ohlcv answers s) tf
     = ohlcv_csv (sync_ohlcv tf (answers tf) s) tf
  /\ requests (ohlcv_trace (sync_all_ohlcv answers s))
     = (requests (ohlcv_trace s)
          ++ [(M1, 500); (M5, 500); (M15, 500); (M30, 500); (H1, 500);
              (H4, 500); (D1, 500); (W1, 200); (MN1, 100)])%list.
Proof.
  assert (Hnd : NoDup TIMEFRAMES).
  { unfold TIMEFRAMES.
    repeat (constructor; [simpl; intuition discriminate |]). constructor. }
  assert (Hin : In tf TIMEFRAMES) by (destruct tf; simpl; tauto).
  destruct (sync_fold_at answers tf TIMEFRAMES Hnd s) as [Hhere _].
  destruct (Hhere Hin) as [Hc Hf].
  split; [exact Hc |]. split; [exact Hf |].
  unfold sync_all_ohlcv, TIMEFRAMES. cbn [fold_left].
  rewrite !sync_ohlcv_requests, <- !app_assoc. reflexivity.
Qed.

(* ------------------------------------------------------------------ *)
(** ** Depth snapshots *)

Lemma snap_dom_disabled (i : dom_input) (s : dom_store) :
  dom_supported s = Some false -> snap_dom i s = s.
Proof. intros H. unfold snap_dom. now rewrite H. Qed.

Lemma snap_repeatedly_disabled (inputs : list dom_input) (s : dom_store) :
  dom_supported s = Some false -> snap_repeatedly inputs s = s.
Proof.
  induction inputs as [|i rest IH]; intros H; [reflexivity |].
  change (snap_repeatedly (i :: rest) s)
    with (snap_repeatedly rest (snap_dom i s)).
  rewrite (snap_dom_disabled i s H). now apply IH.
Qed.

Lemma book_calls_app (xs ys : list dom_event) :
  book_calls (xs ++ ys) = (book_calls xs + book_calls ys)%nat.
Proof. unfold book_calls. now rewrite filter_app, length_app. Qed.

Ltac count_calls :=
  rewrite ?book_calls_app;
  repeat first
    [ progress change (book_calls [MarketBookCall]) with 1%nat
    | progress change (book_calls [LogDomError]) with 0%nat
    | progress change (book_calls [LogDomDisabled]) with 0%nat ];
  cbn [List.length].

(** While detection is pending, an exception changes nothing but the trace. *)
Lemma snap_repeatedly_raised (raised : list dom_input) :
  Forall book_raised raised ->
  forall s, dom_supported s = None ->
    dom_supported (snap_repeatedly raised s) = None
    /\ dom_csv (snap_repeatedly raised s) = dom_csv s
    /\ book_calls (dom_trace (snap_repeatedly raised s))
       = (book_calls (dom_trace s) + List.length raised)%nat.
Proof.
  induction 1 as [|i rest Hi Hrest IH]; intros s Hs.
  - split; [exact Hs |]. split; [reflexivity |]. simpl. lia.
  - change (snap_repeatedly (i :: rest) s)
      with (snap_repeatedly rest (snap_dom i s)).
    assert (Hstep : snap_dom i s
                    = {| dom_supported := None; dom_csv := dom_csv s;
                         dom_trace := ((dom_trace s ++ [MarketBookCall])
                                         ++ [LogDomError])%list |}).
    { unfold snap_dom. rewrite Hs, Hi. reflexivity. }
    destruct (IH (snap_dom i s)) as (H1 & H2 & H3); [now rewrite Hstep |].
    rewrite H1, H2, H3, Hstep. cbn [dom_csv dom_trace].
    count_calls.
    split; [reflexivity |]. split; [reflexivity | lia].
Qed.

(** X13. "Unsupported" is final.  When the first answer of the depth source
    that is not an exception is an absent or empty book, depth logging is
    switched off for the rest of the run: whatever the source would answer
    later, it is never called again and no row is ever written; the source was
    called once per attempt up to and including that answer.  From the
    switched-off state, every further call of [snap_dom] is a no-op. *)
Theorem dom_unsupported_is_final
    (file : csv dom_row) (raised : list dom_input) (i : dom_input)
    (later : list dom_input) :
  Forall book_raised raised -> is_empty_book (book i) = true ->
  let final := snap_repeatedly (raised ++ i :: later) (dom_start file) in
  dom_supported final = Some false
  /\ dom_csv final = file
  /\ book_calls (dom_trace final) = S (List.length raised)
  /\ final = snap_repeatedly (raised ++ [i]) (dom_start file)
  /\ (forall more, snap_repeatedly more final = final).
Proof.
  intros Hraised Hempty final.
  assert (Hsplit : final = snap_repeatedly later
                             (snap_dom i (snap_repeatedly raised (dom_start file)))).
  { unfold final, snap_repeatedly. now rewrite fold_left_app. }
  destruct (snap_repeatedly_raised raised Hraised (dom_start file) eq_refl)
    as (Hs & Hf & Hc).
  set (pending := snap_repeatedly raised (dom_start file)) in *.
  assert (Hoff : snap_dom i pending
                 = {| dom_supported := Some false; dom_csv := dom_csv pending;
                      dom_trace := ((dom_trace pending ++ [MarketBookCall])
                                      ++ [LogDomDisabled])%list |}).
  { unfold snap_dom. rewrite Hs.
    destruct (book i) as [| | entries]; [discriminate | reflexivity |].
    simpl in Hempty. now rewrite Hempty. }
  assert (Hfin : final = snap_dom i pending).
  { rewrite Hsplit. apply snap_repeatedly_disabled. now rewrite Hoff. }
  split; [now rewrite Hfin, Hoff |].
  split; [rewrite Hfin, Hoff; exact Hf |].
  split.
  - rewrite Hfin, Hoff. cbn [dom_trace]. count_calls. rewrite Hc.
    change (book_calls (dom_trace (dom_start file))) with 0%nat. lia.
  - split.
    + rewrite Hfin. unfold pending, snap_repeatedly.
      now rewrite fold_left_app.
    + intros more. apply snap_repeatedly_disabled. now rewrite Hfin, Hoff.
Qed.

Lemma dom_unsupported_is_final_witness :
  let entry := {| entry_type := BOOK_TYPE_BUY; entry_price := 1900.00;
                  entry_volume := 5 |} in
  let final :=
    snap_repeatedly
      ([{| book := BookRaised; dom_clock_msc := 1700053200000 |}]
         ++ {| book := Book []; dom_clock_msc := 1700053205000 |}
         :: [{| book := Book [entry]; dom_clock_msc := 1700053210000 |}])
      (dom_start None) in
  dom_supported final = Some false /\ dom_csv final = None
  /\ book_calls (dom_trace final) = 2%nat.
Proof.
  pose proof (dom_unsupported_is_final None
                [{| book := BookRaised; dom_clock_msc := 1700053200000 |}]
                {| book := Book []; dom_clock_msc := 1700053205000 |}
                [{| book := Book [{| entry_type := BOOK_TYPE_BUY;
                                     entry_price := 1900.00;
                                     entry_volume := 5 |}];
                    dom_clock_msc := 1700053210000 |}]) as H.
  cbv zeta in H.
  destruct H as (H1 & H2 & H3 & _).
  - repeat constructor.
  - reflexivity.
  - cbv zeta. repeat split; assumption.
Defined.

(** One snapshot from the detected state. *)
Lemma snap_dom_supported (i : dom_input) (s : dom_store) :
  dom_supported s = Some true ->
  dom_supported (snap_dom i s) = Some true
  /\ book_calls (dom_trace (snap_dom i s)) = S (book_calls (dom_trace s))
  /\ exists rows,
       csv_rows (dom_csv (snap_dom i s)) = (csv_rows (dom_csv s) ++ rows)%list
       /\ Forall (fun r => dom_time_msc r = dom_clock_msc i) rows
       /\ match book i with
          | Book entries =>
              map dom_type rows = map book_side entries
              /\ map dom_price rows = map entry_price entries
              /\ map dom_volume rows = map entry_volume entries
          | _ => rows = []
          end.
Proof.
  intros Hs. unfold snap_dom. rewrite Hs.
  assert (Hnone : forall tr,
             book_calls ((dom_trace s ++ [MarketBookCall]) ++ tr)
             = S (book_calls (dom_trace s) + book_calls tr)).
  { intros tr. rewrite !book_calls_app.
    change (book_calls [MarketBookCall]) with 1%nat. lia. }
  destruct (book i) as [| | entries].
  - cbn [dom_supported dom_trace dom_csv].
    split; [reflexivity |]. split.
    + rewrite Hnone. change (book_calls [LogDomError]) with 0%nat. lia.
    + exists []. rewrite app_nil_r.
      split; [reflexivity |]. split; [constructor | reflexivity].
  - cbn [dom_supported dom_trace dom_csv].
    split; [reflexivity |]. split.
    + rewrite <- (app_nil_r (dom_trace s ++ [MarketBookCall])), Hnone.
      change (book_calls []) with 0%nat. lia.
    + exists []. rewrite app_nil_r.
      split; [reflexivity |]. split; [constructor | reflexivity].
  - destruct (Nat.eqb (List.length entries) 0) eqn:E.
    + apply length_zero_nil in E. subst entries.
      cbn [dom_supported dom_trace dom_csv].
      split; [reflexivity |]. split.
      * rewrite <- (app_nil_r (dom_trace s ++ [MarketBookCall])), Hnone.
        change (book_calls []) with 0%nat. lia.
      * exists []. rewrite app_nil_r.
        split; [reflexivity |]. split; [constructor |].
        repeat split.
    + cbn [dom_supported dom_trace dom_csv].
      split; [reflexivity |]. split.
      * rewrite <- (app_nil_r (dom_trace s ++ [MarketBookCall])), Hnone.
        change (book_calls []) with 0%nat. lia.
      * eexists. split; [reflexivity |]. split.
        -- apply Forall_forall. intros r Hr. apply in_map_iff in Hr.
           now destruct Hr as (e & <- & _).
        -- rewrite !map_map. repeat split.
Qed.

(** X14. "Supported" is final too, and costs a call every time.  Once a
    non-empty book has been seen, no later answer (an empty book, None, an
    exception) switches depth logging off: over any further snapshots the flag
    stays True, the source is called once per snapshot, and the depth log only
    grows; each snapshot adds one row per book entry, all stamped with that
    snapshot's single clock reading, labelled BID for BOOK_TYPE_BUY entries and
    ASK for every other type, in the order of the book. *)
Theorem dom_supported_is_final (inputs : list dom_input) (s : dom_store) :
  dom_supported s = Some true ->
  dom_supported (snap_repeatedly inputs s) = Some true
  /\ book_calls (dom_trace (snap_repeatedly inputs s))
     = (book_calls (dom_trace s) + List.length inputs)%nat
  /\ (exists rows,
         csv_rows (dom_csv (snap_repeatedly inputs s))
         = (csv_rows (dom_csv s) ++ rows)%list)
  /\ (forall i s0,
         dom_supported s0 = Some true ->
         exists rows,
           csv_rows (dom_csv (snap_dom i s0)) = (csv_rows (dom_csv s0) ++ rows)%list
           /\ Forall (fun r => dom_time_msc r = dom_clock_msc i) rows
           /\ match book i with
              | Book entries =>
                  map dom_type rows = map book_side entries
                  /\ map dom_price rows = map entry_price entries
                  /\ map dom_volume rows = map entry_volume entries
              | _ => rows = []
              end).
Proof.
  intros Hs.
  assert (Hrun : dom_supported (snap_repeatedly inputs s) = Some true
                 /\ book_calls (dom_trace (snap_repeatedly inputs s))
                    = (book_calls (dom_trace s) + List.length inputs)%nat
                 /\ exists rows,
                      csv_rows (dom_csv (snap_repeatedly inputs s))
                      = (csv_rows (dom_csv s) ++ rows)%list).
  { revert s Hs. induction inputs as [|i rest IH]; intros s Hs.
    - simpl. split; [exact Hs |]. split; [lia |].
      exists []. now rewrite app_nil_r.
    - change (snap_repeatedly (i :: rest) s)
        with (snap_repeatedly rest (snap_dom i s)).
      destruct (snap_dom_supported i s Hs) as (H1 & H2 & r1 & Hr1 & _).
      destruct (IH _ H1) as (H3 & H4 & r2 & Hr2).
      split; [exact H3 |]. split; [rewrite H4, H2; simpl; lia |].
      exists (r1 ++ r2)%list. now rewrite Hr2, Hr1, app_assoc. }
  destruct Hrun as (H1 & H2 & H3).
  split; [exact H1 |]. split; [exact H2 |]. split; [exact H3 |].
  intros i s0 Hs0. now destruct (snap_dom_supported i s0 Hs0) as (_ & _ & H).
Qed.

Lemma dom_supported_is_final_witness :
  let bid := {| entry_type := BOOK_TYPE_BUY; entry_price := 1900.00;
                entry_volume := 5 |} in
  let ask := {| entry_type := BOOK_TYPE_SELL; entry_price := 1900.30;
                entry_volume := 3 |} in
  let s := snap_dom {| book := Book [ask; bid]; dom_clock_msc := 1700053200000 |}
                    (dom_start None) in
  let final := snap_repeatedly
                 [{| book := Book []; dom_clock_msc := 1700053205000 |};
                  {| book := BookRaised; dom_clock_msc := 1700053210000 |}] s in
  dom_supported final = Some true
  /\ book_calls (dom_trace final) = 3%nat
  /\ map dom_type (csv_rows (dom_csv final)) = ["ASK"; "BID"].
Proof.
  cbv zeta.
  destruct (dom_supported_is_final
              [{| book := Book []; dom_clock_msc := 1700053205000 |};
               {| book := BookRaised; dom_clock_msc := 1700053210000 |}]
              (snap_dom {| book := Book [{| entry_type := BOOK_TYPE_SELL;
                                            entry_price := 1900.30;
                                            entry_volume := 3 |};
                                         {| entry_type := BOOK_TYPE_BUY;
                                            entry_price := 1900.00;
                                            entry_volume := 5 |}];
                           dom_clock_msc := 1700053200000 |}
                        (dom_start None))
              eq_refl) as (H1 & H2 & _).
  split; [exact H1 |]. split; [exact H2 | reflexivity].
Defined.

(* ------------------------------------------------------------------ *)
(** ** The dedup test at its boundary *)

Lemma skipped_batch (w : world) (i : cycle_input) (ticks_raw : list raw_tick) :
  fetched i = FetchTicks ticks_raw ->
  time_msc_max ticks_raw <= last_time_msc w ->
  last_time_msc (cycle w i) = last_time_msc w
  /\ tick_csv (cycle w i) = tick_csv w
  /\ total_ticks (cycle w i) = total_ticks w
  /\ state_json (cycle w i) = state_json w.
Proof.
  intros Hf Hold.
  assert (Hq : ingests w i = false).
  { destruct (ingests w i) eqn:E; [| reflexivity].
    apply (ingests_iff w i ticks_raw Hf) in E. lia. }
  assert (Hnot : fetched i <> FetchRaised) by (rewrite Hf; discriminate).
  destruct (cycle_skipped w i Hnot Hq) as (_ & H1 & H2 & _ & H3 & H4 & _). auto.
Qed.

Lemma ingested_batch (w : world) (i : cycle_input) (ticks_raw : list raw_tick) :
  fetched i = FetchTicks ticks_raw -> ticks_raw <> [] ->
  last_time_msc w < time_msc_max ticks_raw ->
  last_time_msc (cycle w i) = time_msc_max ticks_raw + 1
  /\ csv_rows (tick_csv (cycle w i))
     = (csv_rows (tick_csv w) ++ map enrich ticks_raw)%list.
Proof.
  intros Hf Hne Hnew.
  assert (Hing : ingests w i = true)
    by (apply (ingests_iff w i ticks_raw Hf); now split).
  destruct (cycle_ingested w i ticks_raw Hf Hing) as (_ & Hwm & _ & _ & Htk & _).
  split; [exact Hwm | now rewrite Htk].
Qed.

(** X15. A tick stamped exactly at the watermark waits.  After a batch with
    newest timestamp T is ingested the watermark is T + 1; a following batch
    whose newest tick is stamped T + 1 does not pass the test
    [new_last > last_time_msc], so that tick is not logged and nothing
    changes; it is logged, once, when a later batch brings it together with a
    tick stamped after it. *)
Theorem boundary_tick_deferred
    (w : world) (i1 i2 i3 : cycle_input)
    (first : list raw_tick) (t1 t2 : raw_tick) :
  fetched i1 = FetchTicks first -> first <> [] ->
  last_time_msc w < time_msc_max first ->
  fetched i2 = FetchTicks [t1] -> time_msc t1 = time_msc_max first + 1 ->
  fetched i3 = FetchTicks [t1; t2] -> time_msc t1 < time_msc t2 ->
  let w2 := run w [i1; i2] in
  let w3 := cycle w2 i3 in
  csv_rows (tick_csv w2) = (csv_rows (tick_csv w) ++ map enrich first)%list
  /\ last_time_msc w2 = time_msc t1
  /\ csv_rows (tick_csv w3)
     = (csv_rows (tick_csv w) ++ map enrich first ++ [enrich t1; enrich t2])%list
  /\ last_time_msc w3 = time_msc t2 + 1.
Proof.
  intros H1 Hne Hnew H2 Ht1 H3 Ht2 w2 w3.
  destruct (ingested_batch w i1 first H1 Hne Hnew) as [Hwm1 Hrows1].
  assert (Hmax2 : time_msc_max [t1] = time_msc t1) by reflexivity.
  assert (Hskip : time_msc_max [t1] <= last_time_msc (cycle w i1))
    by (rewrite Hwm1, Hmax2; lia).
  destruct (skipped_batch (cycle w i1) i2 [t1] H2 Hskip) as (Hwm2 & Htk2 & _).
  change (cycle (cycle w i1) i2) with w2 in Hwm2, Htk2.
  assert (Hmax3 : time_msc_max [t1; t2] = time_msc t2).
  { change (time_msc_max [t1; t2]) with (Z.max (time_msc t1) (time_msc t2)). lia. }
  destruct (ingested_batch w2 i3 [t1; t2] H3) as [Hwm3 Hrows3];
    [discriminate | rewrite Hwm2, Hwm1, Hmax3; lia |].
  fold w3 in Hwm3, Hrows3.
  split; [now rewrite Htk2 |].
  split; [rewrite Hwm2, Hwm1; lia |].
  split; [| rewrite Hwm3, Hmax3; reflexivity].
  rewrite Hrows3, Htk2, Hrows1, <- app_assoc. reflexivity.
Qed.

Lemma boundary_tick_deferred_witness :
  let w := startup 1700053000000 None Absent None in
  let a := quote 1700053200000 1900.00 1900.30 in
  let b := quote 1700053200001 1900.10 1900.35 in
  let c := quote 1700053200002 1900.20 1900.45 in
  let w2 := run w [delivering [a] 1700053200100; delivering [b] 1700053200350] in
  let w3 := cycle w2 (delivering [b; c] 1700053200600) in
  map (fun e => time_msc (tick e)) (csv_rows (tick_csv w2)) = [1700053200000]
  /\ last_time_msc w2 = 1700053200001
  /\ map (fun e => time_msc (tick e)) (csv_rows (tick_csv w3))
     = [1700053200000; 1700053200001; 1700053200002].
Proof.
  pose proof (boundary_tick_deferred
                (startup 1700053000000 None Absent None)
                (delivering [quote 1700053200000 1900.00 1900.30] 1700053200100)
                (delivering [quote 1700053200001 1900.10 1900.35] 1700053200350)
                (delivering [quote 1700053200001 1900.10 1900.35;
                             quote 1700053200002 1900.20 1900.45] 1700053200600)
                [quote 1700053200000 1900.00 1900.30]
                (quote 1700053200001 1900.10 1900.35)
                (quote 1700053200002 1900.20 1900.45)
                eq_refl) as H.
  cbv zeta in H.
  destruct H as (Ha & Hb & Hc & _);
    [discriminate | reflexivity | reflexivity | reflexivity | reflexivity
    | reflexivity |].
  cbv zeta. rewrite Ha, Hb, Hc. repeat split.
Defined.

(** X16. The dedup is per batch, not per tick.  A batch is tested by its
    newest timestamp only and then written whole: when the source returns
    ticks that were already ingested together with a newer one, the already
    ingested ticks are written to the log a second time (and counted again in
    [total_ticks]). *)
Theorem seen_ticks_rewritten
    (w : world) (i1 i2 : cycle_input) (seen fresh : list raw_tick) :
  fetched i1 = FetchTicks seen -> seen <> [] ->
  last_time_msc w < time_msc_max seen ->
  fetched i2 = FetchTicks (seen ++ fresh) ->
  time_msc_max seen + 1 < time_msc_max (seen ++ fresh) ->
  let w2 := run w [i1; i2] in
  csv_rows (tick_csv w2)
  = (csv_rows (tick_csv w)
       ++ map enrich seen ++ map enrich seen ++ map enrich fresh)%list
  /\ total_ticks w2
     = total_ticks w + 2 * Z.of_nat (List.length seen)
       + Z.of_nat (List.length fresh).
Proof.
  intros H1 Hne Hnew H2 Hmore w2.
  assert (Hing1 : ingests w i1 = true)
    by (apply (ingests_iff w i1 seen H1); now split).
  destruct (cycle_ingested w i1 seen H1 Hing1) as (_ & Hwm1 & Htot1 & _ & Htk1 & _).
  assert (Hing2 : ingests (cycle w i1) i2 = true).
  { apply (ingests_iff (cycle w i1) i2 (seen ++ fresh) H2). split.
    - destruct seen; [congruence | discriminate].
    - rewrite Hwm1. exact Hmore. }
  destruct (cycle_ingested (cycle w i1) i2 (seen ++ fresh) H2 Hing2)
    as (_ & _ & Htot2 & _ & Htk2 & _).
  change (cycle (cycle w i1) i2) with w2 in Htot2, Htk2.
  split.
  - rewrite Htk2. cbn [csv_rows to_csv_append]. rewrite Htk1.
    cbn [csv_rows to_csv_append]. now rewrite map_app, <- !app_assoc.
  - rewrite Htot2, Htot1, length_app. lia.
Qed.

Lemma seen_ticks_rewritten_witness :
  let w := startup 1700053000000 None Absent None in
  let a := quote 1700053200000 1900.00 1900.30 in
  let c := quote 1700053200002 1900.20 1900.45 in
  let w2 := run w [delivering [a] 1700053200100; delivering [a; c] 1700053200350] in
  map (fun e => time_msc (tick e)) (csv_rows (tick_csv w2))
  = [1700053200000; 1700053200000; 1700053200002]
  /\ total_ticks w2 = 3.
Proof.
  pose proof (seen_ticks_rewritten
                (startup 1700053000000 None Absent None)
                (delivering [quote 1700053200000 1900.00 1900.30] 1700053200100)
                (delivering [quote 1700053200000 1900.00 1900.30;
                             quote 1700053200002 1900.20 1900.45] 1700053200350)
                [quote 1700053200000 1900.00 1900.30]
                [quote 1700053200002 1900.20 1900.45]
                eq_refl) as H.
  cbv zeta in H.
  destruct H as (Ha & Hb);
    [discriminate | reflexivity | reflexivity | reflexivity |].
  cbv zeta. rewrite Ha, Hb. repeat split.
Defined.

(* ------------------------------------------------------------------ *)
(** ** Clean shutdown *)

(** X17. A clean shutdown saves what a crash loses.  Interrupting the loop
    after any run of iterations writes the watermark then in memory to the
    state file (when the whole record reaches it), touching neither the tick
    log nor the counters; a restart whose clock is not behind that watermark
    resumes from exactly it, and one whose clock is behind it from
    now - 2000 ms.  If the write fails at [open] the file is left as it was;
    if it fails after [open], before the whole record has reached the file,
    the file is left emptied or cut short and the restart resumes from
    now - 2000 ms; if only the closing fails, the record is on file.  Every
    failure is logged, and the closing line is printed all the same. *)
Theorem shutdown_then_restart
    (w : world) (inputs : list cycle_input) (i : cycle_input) (now : Z) :
  let stopped := on_interrupt i (run w inputs) in
  let mark := last_time_msc (run w inputs) in
  tick_csv stopped = tick_csv (run w inputs)
  /\ total_ticks stopped = total_ticks (run w inputs)
  /\ last_time_msc stopped = mark
  /\ (state_write i = Written ->
      state_json stopped = Stored (state_record mark (clock_utc i))
      /\ trace stopped
         = (trace (run w inputs) ++ [LogShutdown false; LogShutdown true])%list
      /\ (0 < mark <= now -> load_state (state_json stopped) now = Ok (JInt mark))
      /\ (mark <= 0 \/ now < mark ->
          load_state (state_json stopped) now = Ok (JInt (now - 2000))))
  /\ (state_write i = OpenFailed ->
      state_json stopped = state_json (run w inputs)
      /\ trace stopped
         = (trace (run w inputs)
              ++ [LogShutdown false; LogStateSaveFailed; LogShutdown true])%list)
  /\ (state_write i = DumpFailed ->
      state_json stopped = Damaged JSONDecodeError
      /\ load_state (state_json stopped) now = Ok (JInt (now - 2000))
      /\ trace stopped
         = (trace (run w inputs)
              ++ [LogShutdown false; LogStateSaveFailed; LogShutdown true])%list)
  /\ (state_write i = CloseFailed ->
      state_json stopped = Stored (state_record mark (clock_utc i))
      /\ trace stopped
         = (trace (run w inputs)
              ++ [LogShutdown false; LogStateSaveFailed; LogShutdown true])%list).
Proof.
  intros stopped mark. unfold stopped, mark, on_interrupt.
  generalize (run w inputs). intros w0.
  unfold save_state, set_state_json, emit.
  destruct (state_write i);
    cbn [tick_csv total_ticks last_time_msc state_json trace];
    (split; [reflexivity |]); (split; [reflexivity |]); (split; [reflexivity |]).
  - split; [| split; [| split]; discriminate]. intros _.
    split; [reflexivity |]. split; [now rewrite <- app_assoc |]. split.
    + intros Hvalid. now apply load_saved_state.
    + intros Hout. now apply load_clamped_state.
  - split; [discriminate |]. split; [| split; discriminate]. intros _.
    split; [reflexivity |]. now rewrite <- !app_assoc.
  - split; [discriminate |]. split; [discriminate |].
    split; [| discriminate]. intros _.
    split; [reflexivity |]. split; [reflexivity |]. now rewrite <- !app_assoc.
  - split; [discriminate |]. split; [discriminate |].
    split; [discriminate |]. intros _.
    split; [reflexivity |]. now rewrite <- !app_assoc.
Qed.

(** Five failures force a reset, then the loop is interrupted: the restart
    resumes from the reset watermark.  Had the write failed after emptying
    the file, the restart would resume from two seconds before its clock. *)
Lemma shutdown_then_restart_witness :
  let w := startup 1700000000000 None Absent None in
  let inputs := [failing 1700000001500; failing 1700000002000;
                 failing 1700000002500; failing 1700000003000;
                 failing 1700000003500] in
  let cut_short := {| fetched := FetchRaised; clock_msc := 1700000004000;
                      clock_utc := msc_to_dt 1700000004000;
                      state_write := DumpFailed |} in
  load_state (state_json (on_interrupt (failing 1700000004000) (run w inputs)))
             1700000010000
  = Ok (JInt 1700000002500)
  /\ load_state (state_json (on_interrupt cut_short (run w inputs)))
                1700000010000
     = Ok (JInt 1700000008000).
Proof.
  cbv zeta. split.
  - pose proof (shutdown_then_restart
                  (startup 1700000000000 None Absent None)
                  [failing 1700000001500; failing 1700000002000;
                   failing 1700000002500; failing 1700000003000;
                   failing 1700000003500]
                  (failing 1700000004000) 1700000010000) as H.
    cbv zeta in H. destruct H as (_ & _ & _ & Hw & _).
    destruct (Hw eq_refl) as (_ & _ & Hload & _).
    apply Hload. vm_compute. split; reflexivity || discriminate.
  - pose proof (shutdown_then_restart
                  (startup 1700000000000 None Absent None)
                  [failing 1700000001500; failing 1700000002000;
                   failing 1700000002500; failing 1700000003000;
                   failing 1700000003500]
                  {| fetched := FetchRaised; clock_msc := 1700000004000;
                     clock_utc := msc_to_dt 1700000004000;
                     state_write := DumpFailed |} 1700000010000) as H.
    cbv zeta in H. destruct H as (_ & _ & _ & _ & _ & Hcut & _).
    destruct (Hcut eq_refl) as (_ & Hload & _). exact Hload.
Defined.
